(** * HoloCube firmware: the MPU6050 motion-to-gesture engine

    A shallow embedding of [driver/imu.h] and [driver/imu.cpp]
    (class [IMU]: [IMU::IMU], [setOrder], [getVirtureMotion6], [update],
    [getAction]) together with the two LVGL input globals the driver writes
    ([encoder_diff], [encoder_state]), and the properties of the gesture
    classifier, the action history ring buffer, the interval gate and the
    encoder bridge.  Three smaller parts of the drivers follow: the path
    strings of [driver/sd_card.cpp] ([join_path], [get_file_basename]),
    the colour animation of [driver/rgb_led.cpp] ([set_rgb],
    [led_hsvOnTimer], [led_rgbOnTimer], [count_cur_brightness]) and the
    rolling average of [driver/ambient.cpp] ([Ambient::getLux]).

    Conventions.
    - C++ integers are modelled as [Z]; a conversion to a fixed width is
      written out ([int16], [int32], [uint32]).  The target is the ESP32
      (ILP32): [long] and [unsigned long] are 32 bits wide.
    - The sensor and the clock are the environment of the driver.  They are
      part of the state ([World]): the sensor is the stream of results of
      the successive [mpu.getMotion6] calls, the clock is advanced by
      [delay].
    - The array [act_info_history] is a [list] read with stdpp's lookup and
      written with stdpp's insert.  An access outside [0 .. 4] is undefined
      behaviour in C++; in the model the read gives [None] and the write
      does nothing.  [IMU::IMU] puts the index in range and [getAction]
      keeps it there ([hist_ok]). *)

From Stdlib Require Import ZArith Lia Bool Ascii.
From stdpp Require Import base list.

Local Open Scope Z_scope.

(** ** Fixed-width integers *)

Definition int16 (z : Z) : Z := (z + 32768) mod 65536 - 32768.
Definition int32 (z : Z) : Z := (z + 2147483648) mod 4294967296 - 2147483648.
Definition uint32 (z : Z) : Z := z mod 4294967296.

(** [-x] on an [int16_t]: promoted to [int], negated, stored back. *)
Definition neg16 (x : Z) : Z := int16 (- x).

Definition INT32_MIN : Z := -2147483648.
Definition INT32_MAX : Z := 2147483647.

(** ** imu.h *)

Definition ACTION_HISTORY_BUF_LEN : Z := 5.

Inductive ACTIVE_TYPE : Set :=
| TURN_RIGHT
| RETURN
| TURN_LEFT
| UP
| DOWN
| GO_FORWORD
| SHAKE
| UNKNOWN.

#[global] Instance ACTIVE_TYPE_eq_dec : EqDecision ACTIVE_TYPE.
Proof. solve_decision. Defined.

(** [enum MPU_DIR_TYPE] *)
Definition NORMAL_DIR_TYPE : Z := 0.
Definition X_DIR_TYPE : Z := 1.
Definition Y_DIR_TYPE : Z := 2.
Definition Z_DIR_TYPE : Z := 4.
Definition XY_DIR_TYPE : Z := 8.

(** [lv_indev_state_t] of LVGL, the type of [encoder_state]. *)
Inductive lv_indev_state_t : Set :=
| LV_INDEV_STATE_REL
| LV_INDEV_STATE_PR.

#[global] Instance lv_indev_state_eq_dec : EqDecision lv_indev_state_t.
Proof. solve_decision. Defined.

Record ImuAction : Set := mkImuAction {
  active : ACTIVE_TYPE;
  isValid : bool;
  long_time : bool;
  v_ax : Z;
  v_ay : Z;
  v_az : Z;
  v_gx : Z;
  v_gy : Z;
  v_gz : Z
}.

Definition set_active (k : ACTIVE_TYPE) (a : ImuAction) : ImuAction :=
  mkImuAction k (isValid a) (long_time a)
              (v_ax a) (v_ay a) (v_az a) (v_gx a) (v_gy a) (v_gz a).
Definition set_isValid (v : bool) (a : ImuAction) : ImuAction :=
  mkImuAction (active a) v (long_time a)
              (v_ax a) (v_ay a) (v_az a) (v_gx a) (v_gy a) (v_gz a).
Definition set_v_ax (x : Z) (a : ImuAction) : ImuAction :=
  mkImuAction (active a) (isValid a) (long_time a)
              x (v_ay a) (v_az a) (v_gx a) (v_gy a) (v_gz a).
Definition set_v_ay (x : Z) (a : ImuAction) : ImuAction :=
  mkImuAction (active a) (isValid a) (long_time a)
              (v_ax a) x (v_az a) (v_gx a) (v_gy a) (v_gz a).
Definition set_v_az (x : Z) (a : ImuAction) : ImuAction :=
  mkImuAction (active a) (isValid a) (long_time a)
              (v_ax a) (v_ay a) x (v_gx a) (v_gy a) (v_gz a).
Definition set_v_gx (x : Z) (a : ImuAction) : ImuAction :=
  mkImuAction (active a) (isValid a) (long_time a)
              (v_ax a) (v_ay a) (v_az a) x (v_gy a) (v_gz a).
Definition set_v_gy (x : Z) (a : ImuAction) : ImuAction :=
  mkImuAction (active a) (isValid a) (long_time a)
              (v_ax a) (v_ay a) (v_az a) (v_gx a) x (v_gz a).
Definition set_v_gz (x : Z) (a : ImuAction) : ImuAction :=
  mkImuAction (active a) (isValid a) (long_time a)
              (v_ax a) (v_ay a) (v_az a) (v_gx a) (v_gy a) x.

(** The members of [class IMU] that the gesture engine uses.  The sensor
    member [mpu] lives in [World]; the member [flag] is never used. *)
Record IMU : Type := mkIMU {
  last_update_time : Z;
  order : Z;
  action_info : ImuAction;
  act_info_history : list ACTIVE_TYPE;
  act_info_history_ind : Z
}.

(** ** The environment: sensor and clock *)

(** One result of [MPU6050::getMotion6]: six [int16_t] values. *)
Record Motion6 : Set := mkMotion6 {
  m_ax : Z;
  m_ay : Z;
  m_az : Z;
  m_gx : Z;
  m_gy : Z;
  m_gz : Z
}.

Record World : Type := mkWorld {
  sensor : nat -> Motion6;  (* the n-th call of getMotion6 returns [sensor n] *)
  reads : nat;              (* number of getMotion6 calls made so far *)
  clock : Z;                (* milliseconds since boot *)
  waits : list Z            (* the arguments of the delay() calls so far *)
}.

Definition getMotion6 (w : World) : Motion6 * World :=
  (sensor w (reads w), mkWorld (sensor w) (S (reads w)) (clock w) (waits w)).

(** [millis()] returns an [unsigned long]. *)
Definition millis (w : World) : Z := uint32 (clock w).

Definition delay (ms : Z) (w : World) : World :=
  mkWorld (sensor w) (reads w) (clock w + ms) (waits w ++ [ms]).

(** The whole state the driver works on: the [IMU] object, the two globals
    declared [extern] in imu.h, and the environment. *)
Record Board : Type := mkBoard {
  imu : IMU;
  encoder_diff : Z;
  encoder_state : lv_indev_state_t;
  world : World
}.

Definition set_action_info (a : ImuAction) (b : Board) : Board :=
  mkBoard (mkIMU (last_update_time (imu b)) (order (imu b)) a
                 (act_info_history (imu b)) (act_info_history_ind (imu b)))
          (encoder_diff b) (encoder_state b) (world b).
Definition set_last_update_time (t : Z) (b : Board) : Board :=
  mkBoard (mkIMU t (order (imu b)) (action_info (imu b))
                 (act_info_history (imu b)) (act_info_history_ind (imu b)))
          (encoder_diff b) (encoder_state b) (world b).
Definition set_history (h : list ACTIVE_TYPE) (i : Z) (b : Board) : Board :=
  mkBoard (mkIMU (last_update_time (imu b)) (order (imu b))
                 (action_info (imu b)) h i)
          (encoder_diff b) (encoder_state b) (world b).
Definition set_encoder_diff (d : Z) (b : Board) : Board :=
  mkBoard (imu b) d (encoder_state b) (world b).
Definition set_encoder_state (st : lv_indev_state_t) (b : Board) : Board :=
  mkBoard (imu b) (encoder_diff b) st (world b).
Definition set_world (w : World) (b : Board) : Board :=
  mkBoard (imu b) (encoder_diff b) (encoder_state b) w.

(** ** imu.cpp *)

(** [IMU::IMU].  The constructor initialises [action_info.isValid],
    [.active], [.long_time], the history, its index and [order]; the
    readings [v_*] and [last_update_time] are left as they are.  The only
    [IMU] object is the global [mpu] (common.h), whose storage is
    zero-initialised before the constructor runs. *)
Definition IMU_new : IMU :=
  mkIMU 0 0
        (mkImuAction UNKNOWN false true 0 0 0 0 0 0)
        (replicate (Z.to_nat ACTION_HISTORY_BUF_LEN) UNKNOWN)
        (ACTION_HISTORY_BUF_LEN - 1).

(** [IMU::setOrder] *)
Definition setOrder (o : Z) (m : IMU) : IMU :=
  mkIMU (last_update_time m) o (action_info m)
        (act_info_history m) (act_info_history_ind m).

(** [order & f] used as a condition. *)
Definition dir_set (o f : Z) : bool := negb (Z.land o f =? 0).

(** What [getMotion6] writes through the six pointers. *)
Definition store_motion (r : Motion6) (a : ImuAction) : ImuAction :=
  mkImuAction (active a) (isValid a) (long_time a)
              (m_ax r) (m_ay r) (m_az r) (m_gx r) (m_gy r) (m_gz r).

(** [IMU::getVirtureMotion6], lines 316-345: the axis inversions and the
    swap, in the order of the source. *)
Definition apply_order (o : Z) (a : ImuAction) : ImuAction :=
  let a := if dir_set o X_DIR_TYPE
           then set_v_gx (neg16 (v_gx a)) (set_v_ax (neg16 (v_ax a)) a)
           else a in
  let a := if dir_set o Y_DIR_TYPE
           then set_v_gy (neg16 (v_gy a)) (set_v_ay (neg16 (v_ay a)) a)
           else a in
  let a := if dir_set o Z_DIR_TYPE
           then set_v_gz (neg16 (v_gz a)) (set_v_az (neg16 (v_az a)) a)
           else a in
  if dir_set o XY_DIR_TYPE
  then
    let swap_tmp := v_ax a in
    let a := set_v_ax (v_ay a) a in
    let a := set_v_ay swap_tmp a in
    let swap_tmp := v_gx a in
    let a := set_v_gx (v_gy a) a in
    set_v_gy swap_tmp a
  else a.

(** [IMU::getVirtureMotion6]: read the sensor into [*action_info], then
    apply the orientation. *)
Definition getVirtureMotion6 (o : Z) (w : World) (a : ImuAction)
  : ImuAction * World :=
  let (r, w') := getMotion6 w in
  (apply_order o (store_motion r a), w').

(** [getVirtureMotion6(&action_info)] on the member [action_info]. *)
Definition read_action_info (b : Board) : Board :=
  let (a, w) := getVirtureMotion6 (order (imu b)) (world b)
                                  (action_info (imu b)) in
  set_world w (set_action_info a b).

(** [IMU::update], lines 137-162: the rotation block. *)
Definition update_rotation (b : Board) : Board :=
  let a := action_info (imu b) in
  if 4000 <? v_ay a then
    let b := set_encoder_diff (int32 (encoder_diff b - 1)) b in
    set_action_info (set_active TURN_LEFT (set_isValid true (action_info (imu b)))) b
  else if v_ay a <? -4000 then
    let b := set_encoder_diff (int32 (encoder_diff b + 1)) b in
    set_action_info (set_active TURN_RIGHT (set_isValid true (action_info (imu b)))) b
  else if (1000 <? v_ay a) || (v_ay a <? -1000) then
    let b := set_encoder_diff (int32 (encoder_diff b - 1)) b in
    set_action_info (set_active SHAKE (set_isValid true (action_info (imu b)))) b
  else
    set_action_info (set_isValid false a) b.

(** [IMU::update], lines 165-203: the linear block, with its [delay(500)]
    and second reading. *)
Definition update_linear (b : Board) : Board :=
  let a := action_info (imu b) in
  if 5000 <? v_ax a then
    let b := set_action_info (set_active UP (set_isValid true a)) b in
    let b := set_world (delay 500 (world b)) b in
    let b := read_action_info b in
    if 5000 <? v_ax (action_info (imu b)) then
      let b := set_action_info
                 (set_active GO_FORWORD (set_isValid true (action_info (imu b)))) b in
      set_encoder_state LV_INDEV_STATE_PR b
    else b
  else if v_ax a <? -5000 then
    let b := set_action_info (set_active DOWN (set_isValid true a)) b in
    let b := set_world (delay 500 (world b)) b in
    let b := read_action_info b in
    if v_ax (action_info (imu b)) <? -5000 then
      let b := set_action_info
                 (set_active RETURN (set_isValid true (action_info (imu b)))) b in
      set_encoder_state LV_INDEV_STATE_REL b
    else b
  else if (1000 <? v_ax a) || (v_ax a <? -1000) then
    set_action_info (set_active SHAKE (set_isValid true a)) b
  else
    set_action_info (set_isValid false a) b.

(** [millis() - last_update_time > interval]: [millis()] is an
    [unsigned long], so the [long] and the [int] are converted to
    [unsigned long] and the comparison is one of 32-bit unsigned values. *)
Definition interval_elapsed (interval : Z) (b : Board) : bool :=
  uint32 interval <? uint32 (millis (world b) - last_update_time (imu b)).

(** [IMU::update].  The returned pointer is [&action_info], that is
    [action_info (imu b')] of the resulting state. *)
Definition update (interval : Z) (b : Board) : Board :=
  let b := read_action_info b in
  if interval_elapsed interval b then
    let b := if negb (isValid (action_info (imu b)))
             then update_rotation b else b in
    let b := if negb (isValid (action_info (imu b)))
             then update_linear b else b in
    set_last_update_time (int32 (millis (world b))) b
  else b.

(** The local [ImuAction tmp_info] of [getAction] before it is filled: its
    [isValid] and [long_time] are never written nor read. *)
Definition tmp_info_local : ImuAction :=
  mkImuAction UNKNOWN false false 0 0 0 0 0 0.

(** [IMU::getAction], lines 220-254: the instantaneous classification of
    [tmp_info].  The last test of the linear block reads the member
    [action_info] ([ai]), as the source does. *)
Definition getAction_classify (ai tmp_info : ImuAction) : ImuAction :=
  let tmp_info := set_active UNKNOWN tmp_info in
  let tmp_info :=
    if decide (UNKNOWN = active tmp_info) then
      if 4000 <? v_ay tmp_info then set_active TURN_LEFT tmp_info
      else if v_ay tmp_info <? -4000 then set_active TURN_RIGHT tmp_info
      else if (1000 <? v_ay tmp_info) || (v_ay tmp_info <? -1000)
           then set_active SHAKE tmp_info
      else tmp_info
    else tmp_info in
  if decide (UNKNOWN = active tmp_info) then
    if 5000 <? v_ax tmp_info then set_active UP tmp_info
    else if v_ax tmp_info <? -5000 then set_active DOWN tmp_info
    else if (1000 <? v_ax ai) || (v_ax ai <? -1000)
         then set_active SHAKE tmp_info
    else tmp_info
  else tmp_info.

(** [act_info_history[i]] *)
Definition hist_get (h : list ACTIVE_TYPE) (i : Z) : option ACTIVE_TYPE :=
  h !! Z.to_nat i.

(** [act_info_history[i] = k] *)
Definition hist_set (h : list ACTIVE_TYPE) (i : Z) (k : ACTIVE_TYPE)
  : list ACTIVE_TYPE :=
  <[Z.to_nat i := k]> h.

(** [IMU::getAction], lines 262-299: short and long press detection on the
    history in which slot [index] has just been written.  C++ [%] is
    [Z.rem]. *)
Definition getAction_sequence (tmp_active : ACTIVE_TYPE) (index : Z)
    (ai : ImuAction) (h : list ACTIVE_TYPE) : ImuAction * list ACTIVE_TYPE :=
  if negb (isValid ai) then
    let isHoldDown := false in
    let second := Z.rem (index + ACTION_HISTORY_BUF_LEN - 1) ACTION_HISTORY_BUF_LEN in
    let third := Z.rem (index + ACTION_HISTORY_BUF_LEN - 2) ACTION_HISTORY_BUF_LEN in
    let ai := if decide (UNKNOWN <> tmp_active)
              then set_active tmp_active (set_isValid true ai)
              else ai in
    if bool_decide (hist_get h index = hist_get h second)
       && bool_decide (hist_get h second = hist_get h third)
    then
      let '(isHoldDown, ai) :=
        if decide (UP = tmp_active)
        then (true, set_active GO_FORWORD (set_isValid true ai))
        else if decide (DOWN = tmp_active)
        then (true, set_active RETURN (set_isValid true ai))
        else (isHoldDown, ai) in
      if isHoldDown
      then (ai, hist_set (hist_set h second UNKNOWN) third UNKNOWN)
      else (ai, h)
    else (ai, h)
  else (ai, h).

(** [IMU::getAction].  The returned pointer is [&action_info]. *)
Definition getAction (b : Board) : Board :=
  let m := imu b in
  let (tmp_info, w) := getVirtureMotion6 (order m) (world b) tmp_info_local in
  let tmp_info := getAction_classify (action_info m) tmp_info in
  let ind := Z.rem (act_info_history_ind m + 1) ACTION_HISTORY_BUF_LEN in
  let index := ind in
  let h := hist_set (act_info_history m) index (active tmp_info) in
  let (ai, h) := getAction_sequence (active tmp_info) index (action_info m) h in
  set_world w (set_history h ind (set_action_info ai b)).

(** ** The specification's reading of the components

    Definitions written from the wording of the design document, to be
    compared with the functions above. *)

(** The orientation configuration: four independent flags of the bit mask
    [order]. *)
Record OrientationConfig : Set := mkOrientationConfig {
  invert_x : bool;
  invert_y : bool;
  invert_z : bool;
  swap_xy : bool
}.

Definition config_of_order (o : Z) : OrientationConfig :=
  mkOrientationConfig (Z.testbit o 0) (Z.testbit o 1)
                      (Z.testbit o 2) (Z.testbit o 3).

(** Steps (1) to (3): negate the accel/gyro pair of an axis if its flag is
    set. *)
Definition invert_axes (cfg : OrientationConfig) (r : Motion6) : Motion6 :=
  mkMotion6 (if invert_x cfg then neg16 (m_ax r) else m_ax r)
            (if invert_y cfg then neg16 (m_ay r) else m_ay r)
            (if invert_z cfg then neg16 (m_az r) else m_az r)
            (if invert_x cfg then neg16 (m_gx r) else m_gx r)
            (if invert_y cfg then neg16 (m_gy r) else m_gy r)
            (if invert_z cfg then neg16 (m_gz r) else m_gz r).

(** Step (4): exchange the X and Y accel values and the X and Y gyro
    values if the swap flag is set. *)
Definition swap_axes (cfg : OrientationConfig) (r : Motion6) : Motion6 :=
  if swap_xy cfg
  then mkMotion6 (m_ay r) (m_ax r) (m_az r) (m_gy r) (m_gx r) (m_gz r)
  else r.

(** Inversion first, swap afterwards. *)
Definition transform (raw : Motion6) (cfg : OrientationConfig) : Motion6 :=
  swap_axes cfg (invert_axes cfg raw).

(** The other order, for comparison. *)
Definition transform_swap_first (raw : Motion6) (cfg : OrientationConfig)
  : Motion6 :=
  invert_axes cfg (swap_axes cfg raw).

(** The threshold cascade of the classifier on one virtual sample. *)
Definition classify (ax ay : Z) : ACTIVE_TYPE :=
  if 4000 <? ay then TURN_LEFT
  else if ay <? -4000 then TURN_RIGHT
  else if 1000 <? Z.abs ay then SHAKE
  else if 5000 <? ax then UP
  else if ax <? -5000 then DOWN
  else if 1000 <? Z.abs ax then SHAKE
  else UNKNOWN.

(** The virtual sample that the next sensor reading gives. *)
Definition next_virtual (b : Board) : Motion6 :=
  transform (sensor (world b) (reads (world b)))
            (config_of_order (order (imu b))).

(** The virtual sample of the reading after the next one. *)
Definition second_virtual (b : Board) : Motion6 :=
  transform (sensor (world b) (S (reads (world b))))
            (config_of_order (order (imu b))).

(** The invariant of the ring buffer: five slots, index within them. *)
Definition hist_ok (m : IMU) : Prop :=
  length (act_info_history m) = 5%nat /\
  0 <= act_info_history_ind m < ACTION_HISTORY_BUF_LEN.

(** Modelled from the spec: the caller's explicit reset of the latch
    between actionable events (the calling code is not among the driver
    sources).  It is a write of [isValid = 0] into the public member
    [action_info]; the engine itself has no such operation. *)
Definition clear_latch (b : Board) : Board :=
  set_action_info (set_isValid false (action_info (imu b))) b.

(** Between two calls the caller clears the latch ([c] true) or leaves
    the engine alone. *)
Definition clear_latch_if (c : bool) (b : Board) : Board :=
  if c then clear_latch b else b.

(** A board at boot: the constructed [IMU], counter at zero, latch
    released, and a given environment. *)
Definition boot (w : World) : Board :=
  mkBoard IMU_new 0 LV_INDEV_STATE_REL w.

(** An environment whose sensor returns the readings of [l] in turn, and
    zeros afterwards. *)
Definition zero_motion : Motion6 := mkMotion6 0 0 0 0 0 0.
Definition world_of (l : list Motion6) (t : Z) : World :=
  mkWorld (fun n => nth n l zero_motion) 0 t [].

(** ** Kinds, runs and the boards of the scenarios *)

(** The kind that a [getAction] call on [b] computes into
    [tmp_info.active] and appends to the history. *)
Definition getAction_kind (b : Board) : ACTIVE_TYPE :=
  active (getAction_classify (action_info (imu b))
            (fst (getVirtureMotion6 (order (imu b)) (world b) tmp_info_local))).

Definition up_sample : Motion6 := mkMotion6 5500 0 0 0 0 0.
Definition down_sample : Motion6 := mkMotion6 (-5500) 0 0 0 0 0.

(** A board whose two previous slots hold [UP], latch clear, and whose
    sensor reads [UP] again. *)
Definition two_up_board : Board :=
  mkBoard (mkIMU 0 0 (mkImuAction UNKNOWN false true 0 0 0 0 0 0)
                 [UP; UP; UNKNOWN; UNKNOWN; UNKNOWN] 1)
          0 LV_INDEV_STATE_REL (world_of [up_sample] 0).

(** The virtual sample of the [n]-th sensor reading under orientation
    [o]. *)
Definition virtual_at (o : Z) (w : World) (n : nat) : Motion6 :=
  transform (sensor w n) (config_of_order o).

(** The run of the end-to-end scenario: the constructed engine and three
    [getAction] calls on the sample ay = 0, ax = 5500. *)
Definition three_up_run : Board :=
  getAction (getAction (getAction
    (boot (world_of [up_sample; up_sample; up_sample] 0)))).

(** The scenario of the gate: a first [update(50)] at time 100 that sees
    ay = 4500, and a board on which a second call follows at once. *)
Definition turn_sample : Motion6 := mkMotion6 0 4500 0 0 0 0.
Definition after_first_update : Board :=
  update 50 (boot (world_of [turn_sample; zero_motion] 100)).

(** The two entry points of the engine. *)
Inductive call : Set :=
| CallGetAction
| CallUpdate (interval : Z).

Definition do_call (c : call) (b : Board) : Board :=
  match c with
  | CallGetAction => getAction b
  | CallUpdate interval => update interval b
  end.

(** The calls of [cs] made one after the other, first call first. *)
Definition run (cs : list call) (b : Board) : Board :=
  foldl (fun b c => do_call c b) b cs.

(** A latched [TURN_LEFT] and a sensor that then reads [UP] three times. *)
Definition latched_board : Board :=
  mkBoard (mkIMU 0 0 (mkImuAction TURN_LEFT true true 0 4500 0 0 0 0)
                 [UNKNOWN; UNKNOWN; UNKNOWN; UNKNOWN; UNKNOWN] 4)
          (-1) LV_INDEV_STATE_REL
          (world_of [up_sample; up_sample; up_sample] 1000).

(** A board at time 100 whose sensor reads [UP] twice, and one whose
    sensor reads [DOWN] twice. *)
Definition up_twice : Board := boot (world_of [up_sample; up_sample] 100).
Definition down_twice : Board :=
  mkBoard IMU_new 0 LV_INDEV_STATE_PR (world_of [down_sample; down_sample] 100).

(** Neither the counter nor the press latch is changed from [b] to [b']. *)
Definition bridge_unchanged (b b' : Board) : Prop :=
  encoder_diff b' = encoder_diff b /\ encoder_state b' = encoder_state b.

(** A board at time 100 with counter 7 whose sensor reads ay = 4500. *)
Definition turn_board : Board :=
  mkBoard IMU_new 7 LV_INDEV_STATE_REL (world_of [turn_sample] 100).

(** A freshly booted board on which one [update(50)] inside the interval
    has stored a virtual sample with ax = 2000; the sensor then reads all
    zeros. *)
Definition shake_sample : Motion6 := mkMotion6 2000 0 0 0 0 0.
Definition stale_board : Board :=
  update 50 (boot (world_of [shake_sample; zero_motion] 10)).

(** ** Further definitions for the engine *)

(** The environment lets [dt] milliseconds pass between two calls. *)
Definition advance (dt : Z) (b : Board) : Board :=
  set_world (mkWorld (sensor (world b)) (reads (world b))
                     (clock (world b) + dt) (waits (world b))) b.

(** The kinds that are not long presses. *)
Definition short_kind (k : ACTIVE_TYPE) : Prop :=
  k <> GO_FORWORD /\ k <> RETURN.

(** The guards of [getAction], lines 262-292, evaluated for the call made
    on [b]: the latch is clear, the three most recent slots are equal
    after the write, and the kind is [UP] or [DOWN]. *)
Definition long_press_fires (b : Board) : bool :=
  let k := getAction_kind b in
  let index := Z.rem (act_info_history_ind (imu b) + 1) ACTION_HISTORY_BUF_LEN in
  let h := hist_set (act_info_history (imu b)) index k in
  let second := Z.rem (index + ACTION_HISTORY_BUF_LEN - 1) ACTION_HISTORY_BUF_LEN in
  let third := Z.rem (index + ACTION_HISTORY_BUF_LEN - 2) ACTION_HISTORY_BUF_LEN in
  negb (isValid (action_info (imu b)))
  && (bool_decide (hist_get h index = hist_get h second)
      && bool_decide (hist_get h second = hist_get h third))
  && (bool_decide (UP = k) || bool_decide (DOWN = k)).

(** The six readings of an action record are [int16_t] values. *)
Definition in_int16 (x : Z) : Prop := -32768 <= x <= 32767.
Definition motion_in_range (a : ImuAction) : Prop :=
  in_int16 (v_ax a) /\ in_int16 (v_ay a) /\ in_int16 (v_az a) /\
  in_int16 (v_gx a) /\ in_int16 (v_gy a) /\ in_int16 (v_gz a).

(** A board whose sensor reads [UP] three times, after two [UP] slots. *)
Definition hold_board : Board :=
  mkBoard (mkIMU 0 0 (mkImuAction UNKNOWN false true 0 0 0 0 0 0)
                 [UP; UP; UNKNOWN; UNKNOWN; UNKNOWN] 1)
          0 LV_INDEV_STATE_REL
          (world_of [up_sample; up_sample; up_sample] 0).

(** The readings and the sustained flag of an action record. *)
Definition readings (a : ImuAction) : Motion6 :=
  mkMotion6 (v_ax a) (v_ay a) (v_az a) (v_gx a) (v_gy a) (v_gz a).

(** ** sd_card.cpp: path strings

    A C string is modelled by the list of its characters before the
    terminating NUL; the destination buffer by the characters written to
    it so far. *)

Definition slash : ascii := "/"%char.

(** The copy loop of [join_path]: each character of [src] up to its NUL
    is stored at [dst], and both pointers move on. *)
Fixpoint copy_chars (dst src : list ascii) : list ascii :=
  match src with
  | [] => dst
  | c :: src' => copy_chars (dst ++ [c]) src'
  end.

(** [join_path].  After the first loop [pre_path] points at the NUL of the
    first component, so [pre_path[-1]] is its last character; for an
    empty first component that read is before the start of the string,
    which has no defined value: the result is [None]. *)
Definition join_path (pre_path rear_path : list ascii) : option (list ascii) :=
  let dst_path := copy_chars [] pre_path in
  match last pre_path with
  | None => None
  | Some c =>
      let dst_path := if negb (Ascii.eqb c slash)
                      then dst_path ++ [slash] else dst_path in
      let rear_path :=
        match rear_path with
        | c0 :: rest => if Ascii.eqb c0 slash then rest else rear_path
        | [] => rear_path
        end in
      Some (copy_chars dst_path rear_path)
  end.

(** The loop of [get_file_basename]: [ret] is the candidate, [cur] the
    rest of the path still to scan. *)
Fixpoint basename_loop (ret cur : list ascii) : list ascii :=
  match cur with
  | [] => ret
  | c :: cur' => basename_loop (if Ascii.eqb c slash then cur' else ret) cur'
  end.

(** [get_file_basename] *)
Definition get_file_basename (path : list ascii) : list ascii :=
  basename_loop path path.

Definition FILENAME_MAX_LEN : Z := 100.

(** ** rgb_led.cpp: the colour animation

    [float] values are kept abstract: the animation of the three colour
    channels is integer arithmetic, and the brightness is carried along
    with the operations the source applies to it.  The FreeRTOS timer is
    represented by the callback it was created with; the calls of the
    [Pixel] methods by the list of commands issued. *)

Definition uint8 (z : Z) : Z := z mod 256.
Definition int8 (z : Z) : Z := (z + 128) mod 256 - 128.

Definition LED_MODE_RGB : Z := 0.
Definition LED_MODE_HSV : Z := 1.

Inductive TimerCallback : Set :=
| cb_led_rgbOnTimer
| cb_led_hsvOnTimer.

Section RgbLed.

Variable float : Type.
Variable fadd : float -> float -> float.
Variable fmul : float -> float -> float.
Variable float_of_int : Z -> float.
Variable fge : float -> float -> bool.
Variable fle : float -> float -> bool.

(** [struct RgbParam]; each anonymous union is one field, named after
    its first member. *)
Record RgbParam : Type := mkRgbParam {
  mode : Z;
  min_value_r : Z;
  min_value_g : Z;
  min_value_b : Z;
  max_value_r : Z;
  max_value_g : Z;
  max_value_b : Z;
  step_r : Z;
  step_g : Z;
  step_b : Z;
  min_brightness : float;
  max_brightness : float;
  brightness_step : float;
  time : Z
}.

(** [struct RgbRunStatus] *)
Record RgbRunStatus : Type := mkRgbRunStatus {
  current_r : Z;
  current_g : Z;
  current_b : Z;
  pos : Z;
  current_brightness : float
}.

(** The calls [rgb.setRGB], [rgb.setHVS] and [.setBrightness]. *)
Inductive LedCmd : Type :=
| SetRGB (r g b : Z)
| SetHVS (h s v : Z)
| SetBrightness (duty : float).

(** The globals of rgb_led.cpp. *)
Record Led : Type := mkLed {
  g_rgb : RgbParam;
  rgb_status : RgbRunStatus;
  xTimer_rgb : option TimerCallback;
  led_cmds : list LedCmd
}.

(** [count_cur_brightness] *)
Definition count_cur_brightness (l : Led) : Led :=
  let g := g_rgb l in
  let st := rgb_status l in
  let cb := fadd (current_brightness st) (brightness_step g) in
  let '(cb, bstep) :=
    if fge cb (max_brightness g)
    then (max_brightness g, fmul (float_of_int (-1)) (brightness_step g))
    else if fle cb (min_brightness g)
    then (min_brightness g, fmul (float_of_int (-1)) (brightness_step g))
    else (cb, brightness_step g) in
  mkLed (mkRgbParam (mode g) (min_value_r g) (min_value_g g) (min_value_b g)
                    (max_value_r g) (max_value_g g) (max_value_b g)
                    (step_r g) (step_g g) (step_b g)
                    (min_brightness g) (max_brightness g) bstep (time g))
        (mkRgbRunStatus (current_r st) (current_g st) (current_b st)
                        (pos st) cb)
        (xTimer_rgb l) (led_cmds l).

(** The block that [led_hsvOnTimer] repeats for hue, saturation and
    value: add the step to the [uint8_t] channel, and at either bound
    clamp and negate the [int8_t] step.  Returns channel and step. *)
Definition hsv_channel (cur step minv maxv : Z) : Z * Z :=
  let cur := uint8 (cur + step) in
  if maxv <=? cur then (maxv, int8 ((-1) * step))
  else if cur <=? minv then (minv, int8 ((-1) * step))
  else (cur, step).

(** [led_hsvOnTimer]; in HSV mode the fields [*_r], [*_g], [*_b] hold
    hue, saturation and value. *)
Definition led_hsvOnTimer (l : Led) : Led :=
  let g := g_rgb l in
  let st := rgb_status l in
  let '(h, sh) := hsv_channel (current_r st) (step_r g)
                              (min_value_r g) (max_value_r g) in
  let '(s, ss) := hsv_channel (current_g st) (step_g g)
                              (min_value_g g) (max_value_g g) in
  let '(v, sv) := hsv_channel (current_b st) (step_b g)
                              (min_value_b g) (max_value_b g) in
  let l := mkLed (mkRgbParam (mode g) (min_value_r g) (min_value_g g)
                             (min_value_b g) (max_value_r g) (max_value_g g)
                             (max_value_b g) sh ss sv
                             (min_brightness g) (max_brightness g)
                             (brightness_step g) (time g))
                 (mkRgbRunStatus h s v (pos st) (current_brightness st))
                 (xTimer_rgb l) (led_cmds l) in
  let l := count_cur_brightness l in
  mkLed (g_rgb l) (rgb_status l) (xTimer_rgb l)
        (led_cmds l ++ [SetHVS (current_r (rgb_status l))
                               (current_g (rgb_status l))
                               (current_b (rgb_status l));
                        SetBrightness (current_brightness (rgb_status l))]).

Definition set_colour (r g b p sr : Z) (l : Led) : Led :=
  let g0 := g_rgb l in
  mkLed (mkRgbParam (mode g0) (min_value_r g0) (min_value_g g0)
                    (min_value_b g0) (max_value_r g0) (max_value_g g0)
                    (max_value_b g0) sr (step_g g0) (step_b g0)
                    (min_brightness g0) (max_brightness g0)
                    (brightness_step g0) (time g0))
        (mkRgbRunStatus r g b p (current_brightness (rgb_status l)))
        (xTimer_rgb l) (led_cmds l).

(** [led_rgbOnTimer], lines 149-190: the colour phases; all three step
    by [step_r]. *)
Definition led_rgb_phase (l : Led) : Led :=
  let g := g_rgb l in
  let st := rgb_status l in
  if 0 =? pos st then
    let r := uint8 (current_r st + step_r g) in
    if (max_value_r g <=? r) && (0 <? step_r g)
    then set_colour (max_value_r g) (current_g st) (current_b st) 1 (step_r g) l
    else if (r <=? min_value_r g) && (step_r g <? 0)
    then set_colour (min_value_r g) (current_g st) (current_b st) (pos st)
                    (int8 ((-1) * step_r g)) l
    else set_colour r (current_g st) (current_b st) (pos st) (step_r g) l
  else if 1 =? pos st then
    let gr := uint8 (current_g st + step_r g) in
    if (max_value_g g <=? gr) && (0 <? step_r g)
    then set_colour (current_r st) (max_value_g g) (current_b st) 2 (step_r g) l
    else if (gr <=? min_value_g g) && (step_r g <? 0)
    then set_colour (current_r st) (min_value_g g) (current_b st) 0 (step_r g) l
    else set_colour (current_r st) gr (current_b st) (pos st) (step_r g) l
  else if 2 =? pos st then
    let bl := uint8 (current_b st + step_r g) in
    if (max_value_b g <=? bl) && (0 <? step_r g)
    then set_colour (current_r st) (current_g st) (max_value_b g) (pos st)
                    (int8 ((-1) * step_r g)) l
    else if (bl <=? min_value_b g) && (step_r g <? 0)
    then set_colour (current_r st) (current_g st) (min_value_b g) 1 (step_r g) l
    else set_colour (current_r st) (current_g st) bl (pos st) (step_r g) l
  else l.

(** [led_rgbOnTimer] *)
Definition led_rgbOnTimer (l : Led) : Led :=
  let l := led_rgb_phase l in
  let l := count_cur_brightness l in
  mkLed (g_rgb l) (rgb_status l) (xTimer_rgb l)
        (led_cmds l ++ [SetRGB (current_r (rgb_status l))
                               (current_g (rgb_status l))
                               (current_b (rgb_status l));
                        SetBrightness (current_brightness (rgb_status l))]).

(** [set_rgb]: copy the setting, stop the running timer, initialise the
    run status for the mode and create the timer with the callback of
    the mode (for another mode no timer is created and the status is
    left as it is). *)
Definition set_rgb (rgb_setting : RgbParam) (l : Led) : Led :=
  let g := rgb_setting in
  let st := rgb_status l in
  if LED_MODE_RGB =? mode g then
    mkLed g (mkRgbRunStatus (min_value_r g) (min_value_g g) (min_value_b g)
                            0 (min_brightness g))
          (Some cb_led_rgbOnTimer) (led_cmds l)
  else if LED_MODE_HSV =? mode g then
    mkLed g (mkRgbRunStatus (min_value_r g) (min_value_g g) (min_value_b g)
                            0 (min_brightness g))
          (Some cb_led_hsvOnTimer) (led_cmds l)
  else mkLed g st None (led_cmds l).

(** [rgb_thread_init] *)
Definition rgb_thread_init (rgb_setting : RgbParam) (l : Led) : Led :=
  set_rgb rgb_setting l.

(** [rgb_thread_del] *)
Definition rgb_thread_del (l : Led) : Led :=
  mkLed (g_rgb l) (rgb_status l) None (led_cmds l).

(** One firing of the timer: the callback it was created with runs. *)
Definition timer_tick (l : Led) : Led :=
  match xTimer_rgb l with
  | Some cb_led_rgbOnTimer => led_rgbOnTimer l
  | Some cb_led_hsvOnTimer => led_hsvOnTimer l
  | None => l
  end.

(** The three channels lie within the bounds of the setting. *)
Definition in_bounds (l : Led) : Prop :=
  min_value_r (g_rgb l) <= current_r (rgb_status l) <= max_value_r (g_rgb l) /\
  min_value_g (g_rgb l) <= current_g (rgb_status l) <= max_value_g (g_rgb l) /\
  min_value_b (g_rgb l) <= current_b (rgb_status l) <= max_value_b (g_rgb l).

(** The bounds, mode and period of two states are the same. *)
Definition same_setting (l l' : Led) : Prop :=
  mode (g_rgb l') = mode (g_rgb l) /\
  min_value_r (g_rgb l') = min_value_r (g_rgb l) /\
  min_value_g (g_rgb l') = min_value_g (g_rgb l) /\
  min_value_b (g_rgb l') = min_value_b (g_rgb l) /\
  max_value_r (g_rgb l') = max_value_r (g_rgb l) /\
  max_value_g (g_rgb l') = max_value_g (g_rgb l) /\
  max_value_b (g_rgb l') = max_value_b (g_rgb l) /\
  time (g_rgb l') = time (g_rgb l) /\
  xTimer_rgb l' = xTimer_rgb l.

(** The bounds of the setting are ordered. *)
Definition bounds_ordered (g : RgbParam) : Prop :=
  min_value_r g <= max_value_r g /\
  min_value_g g <= max_value_g g /\
  min_value_b g <= max_value_b g.

(** No [uint8_t] addition of the RGB animation can wrap: the step fits
    between every bound and the ends of the range 0..255. *)
Definition no_wrap (g : RgbParam) : Prop :=
  -127 <= step_r g <= 127 /\
  Z.abs (step_r g) <= min_value_r g /\ max_value_r g + Z.abs (step_r g) <= 255 /\
  Z.abs (step_r g) <= min_value_g g /\ max_value_g g + Z.abs (step_r g) <= 255 /\
  Z.abs (step_r g) <= min_value_b g /\ max_value_b g + Z.abs (step_r g) <= 255.

(** The phase of the RGB animation is one of red, green, blue. *)
Definition phase_ok (l : Led) : Prop :=
  pos (rgb_status l) = 0 \/ pos (rgb_status l) = 1 \/ pos (rgb_status l) = 2.

End RgbLed.

Arguments mkRgbParam {float}.
Arguments mode {float}.
Arguments min_value_r {float}.
Arguments min_value_g {float}.
Arguments min_value_b {float}.
Arguments max_value_r {float}.
Arguments max_value_g {float}.
Arguments max_value_b {float}.
Arguments step_r {float}.
Arguments step_g {float}.
Arguments step_b {float}.
Arguments min_brightness {float}.
Arguments max_brightness {float}.
Arguments brightness_step {float}.
Arguments time {float}.
Arguments mkRgbRunStatus {float}.
Arguments current_r {float}.
Arguments current_g {float}.
Arguments current_b {float}.
Arguments pos {float}.
Arguments current_brightness {float}.
Arguments SetRGB {float}.
Arguments SetHVS {float}.
Arguments SetBrightness {float}.
Arguments mkLed {float}.
Arguments g_rgb {float}.
Arguments rgb_status {float}.
Arguments xTimer_rgb {float}.
Arguments led_cmds {float}.
Arguments count_cur_brightness {float}.
Arguments led_hsvOnTimer {float}.
Arguments led_rgbOnTimer {float}.
Arguments led_rgb_phase {float}.
Arguments no_wrap {float}.
Arguments phase_ok {float}.
Arguments set_colour {float}.
Arguments set_rgb {float}.
Arguments rgb_thread_init {float}.
Arguments rgb_thread_del {float}.
Arguments timer_tick {float}.
Arguments in_bounds {float}.
Arguments same_setting {float}.
Arguments bounds_ordered {float}.

(** A stand-in for the [float] operations, enough to run the animation
    on concrete settings: brightness in thousandths, as integers. *)
Definition hsv_setting : RgbParam Z :=
  mkRgbParam LED_MODE_HSV 10 20 30 200 210 220 5 (-3) 100 100 900 50 30.
Definition rgb_setting : RgbParam Z :=
  mkRgbParam LED_MODE_RGB 10 20 30 200 210 220 5 0 0 100 900 50 30.
Definition led_off : Led Z :=
  mkLed (mkRgbParam 7 0 0 0 0 0 0 0 0 0 0 0 0 0)
        (mkRgbRunStatus 250 0 0 0 0) None [].
Definition z_hsv_tick : Led Z -> Led Z :=
  led_hsvOnTimer Z.add Z.mul (fun z => z) Z.geb Z.leb.
Definition z_rgb_tick : Led Z -> Led Z :=
  led_rgbOnTimer Z.add Z.mul (fun z => z) Z.geb Z.leb.
Definition z_tick : Led Z -> Led Z :=
  timer_tick Z.add Z.mul (fun z => z) Z.geb Z.leb.

(** ** ambient.cpp: the light sensor

    The I2C bus and the clock are the environment ([Wire]): the values
    that the successive [Wire.read()] calls return, the bytes written,
    and the time.  The conversion [sensorOut / 1.2], a [double] division
    converted back to [unsigned int], is kept abstract. *)

Record Ambient : Type := mkAmbient {
  mMode : Z;
  highByte : Z;
  lowByte : Z;
  sensorOut : Z;
  illuminance : Z;
  lux : list Z;
  sample_time : Z;
  last_time : Z
}.

Record Wire : Type := mkWire {
  wire_clock : Z;          (* milliseconds since boot *)
  wire_in : nat -> Z;      (* the n-th Wire.read() returns [wire_in n] *)
  wire_reads : nat;        (* number of Wire.read() calls so far *)
  wire_out : list Z        (* the bytes written to the sensor so far *)
}.

(** [for (int i = 4; i > 0; i--) lux[i] = lux[i - 1];] run from [i]. *)
Fixpoint shift_lux (i : nat) (l : list Z) : list Z :=
  match i with
  | O => l
  | S j => shift_lux j (<[S j := default 0 (l !! j)]> l)
  end.

(** [for (int i = 4; i >= 0; i--) avg += lux[i];] with [n = i + 1]
    entries left to add; [avg] is an [unsigned int]. *)
Fixpoint sum_lux (n : nat) (avg : Z) (l : list Z) : Z :=
  match n with
  | O => avg
  | S j => sum_lux j (uint32 (avg + default 0 (l !! j))) l
  end.

Section AmbientLight.

(** [sensorOut / 1.2] stored into the [unsigned int illuminance]. *)
Variable lux_of_raw : Z -> Z.

(** [millis() - last_time > sample_time], in [unsigned long]. *)
Definition sample_due (a : Ambient) (w : Wire) : bool :=
  uint32 (sample_time a) <? uint32 (uint32 (wire_clock w) - last_time a).

(** [Ambient::getLux]; returns the average with the new state. *)
Definition getLux (a : Ambient) (w : Wire) : Z * Ambient * Wire :=
  let '(a, w) :=
    if sample_due a w then
      let last := int32 (uint32 (wire_clock w)) in
      let hb := uint8 (wire_in w (wire_reads w)) in
      let lb := uint8 (wire_in w (S (wire_reads w))) in
      let out := Z.lor (Z.shiftl hb 8) lb in
      let ill := lux_of_raw out in
      let l := shift_lux 4 (lux a) in
      let l := <[0%nat := ill]> l in
      (mkAmbient (mMode a) hb lb out ill l (sample_time a) last,
       mkWire (wire_clock w) (wire_in w) (S (S (wire_reads w)))
              (wire_out w ++ [uint8 (mMode a)]))
    else (a, w) in
  let avg := sum_lux 5 0 (lux a) in
  let avg := avg / 5 in
  (avg, a, w).

End AmbientLight.

(** ** Fixed-width arithmetic *)

Lemma int32_id (z : Z) : INT32_MIN <= z <= INT32_MAX -> int32 z = z.
Proof.
  unfold INT32_MIN, INT32_MAX, int32. intros H.
  rewrite Z.mod_small by lia. lia.
Qed.

Lemma int16_id (z : Z) : -32768 <= z <= 32767 -> int16 z = z.
Proof.
  unfold int16. intros H. rewrite Z.mod_small by lia. lia.
Qed.

Lemma land_pow2 (o k : Z) :
  0 <= k -> Z.land o (2 ^ k) = if Z.testbit o k then 2 ^ k else 0.
Proof.
  intros Hk. apply Z.bits_inj'. intros n Hn.
  rewrite Z.land_spec, Z.pow2_bits_eqb by lia.
  destruct (Z.eqb_spec k n) as [->|Hne].
  - destruct (Z.testbit o n) eqn:E; simpl.
    + now rewrite Z.pow2_bits_true.
    + now rewrite Z.bits_0.
  - rewrite andb_false_r.
    destruct (Z.testbit o k).
    + rewrite Z.pow2_bits_false; auto.
    + now rewrite Z.bits_0.
Qed.

Lemma dir_set_testbit (o k : Z) :
  0 <= k -> dir_set o (2 ^ k) = Z.testbit o k.
Proof.
  intros Hk. unfold dir_set. rewrite land_pow2 by assumption.
  destruct (Z.testbit o k); simpl.
  - assert (0 < 2 ^ k) by (apply Z.pow_pos_nonneg; lia).
    destruct (Z.eqb_spec (2 ^ k) 0); [lia | reflexivity].
  - reflexivity.
Qed.

Lemma dir_set_flags (o : Z) :
  dir_set o X_DIR_TYPE = Z.testbit o 0 /\
  dir_set o Y_DIR_TYPE = Z.testbit o 1 /\
  dir_set o Z_DIR_TYPE = Z.testbit o 2 /\
  dir_set o XY_DIR_TYPE = Z.testbit o 3.
Proof.
  repeat split.
  - exact (dir_set_testbit o 0 ltac:(lia)).
  - exact (dir_set_testbit o 1 ltac:(lia)).
  - exact (dir_set_testbit o 2 ltac:(lia)).
  - exact (dir_set_testbit o 3 ltac:(lia)).
Qed.

(** ** The orientation transform *)

Lemma apply_order_transform (o : Z) (r : Motion6) (a : ImuAction) :
  apply_order o (store_motion r a)
  = store_motion (transform r (config_of_order o)) a.
Proof.
  destruct (dir_set_flags o) as (Hx & Hy & Hz & Hxy).
  unfold apply_order, transform, swap_axes, invert_axes, config_of_order.
  rewrite Hx, Hy, Hz, Hxy. cbn [invert_x invert_y invert_z swap_xy].
  destruct (Z.testbit o 0), (Z.testbit o 1), (Z.testbit o 2),
    (Z.testbit o 3); reflexivity.
Qed.

(** C5.  For every raw sample (the next sensor reading) and every
    orientation mask, [getVirtureMotion6] stores exactly the result of:
    negate X accel/gyro if invert-X is set, negate Y accel/gyro if invert-Y
    is set, negate Z accel/gyro if invert-Z is set, and then, if swap-XY is
    set, exchange the already inverted X and Y accel values and X and Y
    gyro values.  The other fields of the action record are kept and one
    sensor reading is consumed. *)
Theorem getVirtureMotion6_inverts_then_swaps (o : Z) (w : World) (a : ImuAction) :
  getVirtureMotion6 o w a
  = (store_motion (swap_axes (config_of_order o)
                     (invert_axes (config_of_order o) (sensor w (reads w)))) a,
     mkWorld (sensor w) (S (reads w)) (clock w) (waits w)).
Proof.
  unfold getVirtureMotion6, getMotion6.
  rewrite apply_order_transform. reflexivity.
Qed.

(** The order matters: with invert-X and swap-XY both set, swapping
    before inverting gives another sample. *)
Lemma transform_order_matters :
  transform (mkMotion6 1 2 3 4 5 6) (config_of_order 9)
    = mkMotion6 2 (-1) 3 5 (-4) 6 /\
  transform_swap_first (mkMotion6 1 2 3 4 5 6) (config_of_order 9)
    = mkMotion6 (-2) 1 3 (-5) 4 6.
Proof. split; reflexivity. Qed.

(** ** [getAction]: classification *)

Lemma getAction_classify_active (ai tmp : ImuAction) :
  active (getAction_classify ai tmp) =
  if 4000 <? v_ay tmp then TURN_LEFT
  else if v_ay tmp <? -4000 then TURN_RIGHT
  else if (1000 <? v_ay tmp) || (v_ay tmp <? -1000) then SHAKE
  else if 5000 <? v_ax tmp then UP
  else if v_ax tmp <? -5000 then DOWN
  else if (1000 <? v_ax ai) || (v_ax ai <? -1000) then SHAKE
  else UNKNOWN.
Proof.
  unfold getAction_classify.
  cbn [active set_active v_ax v_ay].
  destruct (decide (UNKNOWN = UNKNOWN)) as [_|]; [|congruence].
  destruct (4000 <? v_ay tmp); [reflexivity|].
  destruct (v_ay tmp <? -4000); [reflexivity|].
  destruct ((1000 <? v_ay tmp) || (v_ay tmp <? -1000)); [reflexivity|].
  cbn [active set_active v_ax v_ay].
  destruct (decide (UNKNOWN = UNKNOWN)) as [_|]; [|congruence].
  destruct (5000 <? v_ax tmp); [reflexivity|].
  destruct (v_ax tmp <? -5000); [reflexivity|].
  destruct ((1000 <? v_ax ai) || (v_ax ai <? -1000)); reflexivity.
Qed.

(** The kind in terms of the virtual sample of the call and of the
    [v_ax] that [action_info] holds from an earlier [update]. *)
Lemma getAction_kind_cascade (b : Board) :
  getAction_kind b =
  let ay := m_ay (next_virtual b) in
  let ax := m_ax (next_virtual b) in
  let old_ax := v_ax (action_info (imu b)) in
  if 4000 <? ay then TURN_LEFT
  else if ay <? -4000 then TURN_RIGHT
  else if (1000 <? ay) || (ay <? -1000) then SHAKE
  else if 5000 <? ax then UP
  else if ax <? -5000 then DOWN
  else if (1000 <? old_ax) || (old_ax <? -1000) then SHAKE
  else UNKNOWN.
Proof.
  unfold getAction_kind. rewrite getAction_classify_active.
  unfold getVirtureMotion6, getMotion6. cbn [fst].
  rewrite apply_order_transform. reflexivity.
Qed.

Lemma abs_gt (x t : Z) : 0 <= t -> (t <? Z.abs x) = ((t <? x) || (x <? - t)).
Proof.
  intros Ht.
  destruct (Z.ltb_spec t (Z.abs x)), (Z.ltb_spec t x), (Z.ltb_spec x (- t));
    simpl; try reflexivity; lia.
Qed.

(** Where the classification of [getAction] agrees with the cascade on
    the current sample: whenever a test before the last one decides, or
    the [v_ax] left in [action_info] is on the same side of the shake
    threshold as the current one. *)
Lemma getAction_kind_classify (b : Board) :
  let ay := m_ay (next_virtual b) in
  let ax := m_ax (next_virtual b) in
  let old_ax := v_ax (action_info (imu b)) in
  (1000 < Z.abs ay \/ 5000 < Z.abs ax \/
   (1000 <? Z.abs old_ax) = (1000 <? Z.abs ax)) ->
  getAction_kind b = classify ax ay.
Proof.
  intros ay ax old_ax H. rewrite getAction_kind_cascade. fold ay ax old_ax.
  cbv zeta. unfold classify.
  rewrite (abs_gt ay 1000), (abs_gt ax 1000) by lia.
  rewrite (abs_gt old_ax 1000), (abs_gt ax 1000) in H by lia.
  change (- (1000)) with (-1000) in *.
  destruct (Z.ltb_spec 4000 ay); [reflexivity|].
  destruct (Z.ltb_spec ay (-4000)); [reflexivity|].
  destruct (Z.ltb_spec 1000 ay); [reflexivity|].
  destruct (Z.ltb_spec ay (-1000)); [reflexivity|]. cbn [orb].
  destruct (Z.ltb_spec 5000 ax); [reflexivity|].
  destruct (Z.ltb_spec ax (-5000)); [reflexivity|].
  destruct H as [H|[H|H]]; [lia|lia|]. now rewrite H.
Qed.

(** [getAction] in one piece. *)
Lemma getAction_eq (b : Board) :
  getAction b =
  let k := getAction_kind b in
  let index := Z.rem (act_info_history_ind (imu b) + 1) ACTION_HISTORY_BUF_LEN in
  let r := getAction_sequence k index (action_info (imu b))
             (hist_set (act_info_history (imu b)) index k) in
  mkBoard (mkIMU (last_update_time (imu b)) (order (imu b)) (fst r) (snd r) index)
          (encoder_diff b) (encoder_state b)
          (mkWorld (sensor (world b)) (S (reads (world b)))
                   (clock (world b)) (waits (world b))).
Proof.
  unfold getAction, getAction_kind, getVirtureMotion6, getMotion6.
  cbn [fst snd].
  destruct (getAction_sequence _ _ _ _) as [ai h]. reflexivity.
Qed.

(** In a state that satisfies the ring-buffer invariant the C++ remainder
    is the modulus. *)
Lemma next_index_mod (i : Z) :
  0 <= i < ACTION_HISTORY_BUF_LEN ->
  Z.rem (i + 1) ACTION_HISTORY_BUF_LEN = (i + 1) mod 5.
Proof.
  unfold ACTION_HISTORY_BUF_LEN. intros H.
  apply Z.rem_mod_nonneg; lia.
Qed.

Lemma getAction_ind (b : Board) :
  act_info_history_ind (imu (getAction b))
  = Z.rem (act_info_history_ind (imu b) + 1) ACTION_HISTORY_BUF_LEN.
Proof. rewrite getAction_eq. reflexivity. Qed.

Lemma getAction_sequence_length k index ai h :
  length (snd (getAction_sequence k index ai h)) = length h.
Proof.
  unfold getAction_sequence, hist_set.
  destruct (negb (isValid ai)); [|reflexivity].
  destruct (_ && _); [|reflexivity].
  destruct (decide (UP = k)); [cbn; now rewrite !length_insert|].
  destruct (decide (DOWN = k)); [cbn; now rewrite !length_insert|].
  reflexivity.
Qed.

(** [getAction] keeps the ring-buffer invariant. *)
Lemma getAction_hist_ok (b : Board) :
  hist_ok (imu b) -> hist_ok (imu (getAction b)).
Proof.
  intros [Hlen Hind]. rewrite getAction_eq. unfold hist_ok. cbn.
  rewrite getAction_sequence_length. unfold hist_set.
  rewrite length_insert. split; [assumption|].
  rewrite next_index_mod by assumption.
  unfold ACTION_HISTORY_BUF_LEN. apply Z.mod_pos_bound. lia.
Qed.

Lemma IMU_new_hist_ok : hist_ok IMU_new.
Proof. split; [reflexivity | cbn; unfold ACTION_HISTORY_BUF_LEN; lia]. Qed.

(** ** [getAction]: history and long press *)

Lemma index_cases (i : Z) :
  0 <= i < ACTION_HISTORY_BUF_LEN -> i = 0 \/ i = 1 \/ i = 2 \/ i = 3 \/ i = 4.
Proof. unfold ACTION_HISTORY_BUF_LEN. lia. Qed.

Lemma list5 {A : Type} (l : list A) :
  length l = 5%nat -> exists a0 a1 a2 a3 a4, l = [a0; a1; a2; a3; a4].
Proof.
  intros H.
  destruct l as [|a0 [|a1 [|a2 [|a3 [|a4 [|a5 l]]]]]]; try discriminate H.
  now exists a0, a1, a2, a3, a4.
Qed.

Ltac ring_cases Hlen Hind :=
  let h0 := fresh "h0" in let h1 := fresh "h1" in let h2 := fresh "h2" in
  let h3 := fresh "h3" in let h4 := fresh "h4" in
  let E := fresh "E" in let E' := fresh "E" in
  destruct (list5 _ Hlen) as (h0 & h1 & h2 & h3 & h4 & E);
  destruct (index_cases _ Hind) as [E'|[E'|[E'|[E'|E']]]];
  rewrite E, E' in *; clear E E'.

(** Evaluate the closed index expressions of the goal. *)
Ltac eval_indices :=
  unfold ACTION_HISTORY_BUF_LEN;
  repeat match goal with
  | |- context [Z.modulo ?a ?m] =>
      let v := eval vm_compute in (Z.modulo a m) in
      change (Z.modulo a m) with v
  | |- context [Z.rem ?a ?m] =>
      let v := eval vm_compute in (Z.rem a m) in
      change (Z.rem a m) with v
  end;
  repeat match goal with
  | |- context [Z.to_nat ?a] =>
      let v := eval vm_compute in (Z.to_nat a) in
      change (Z.to_nat a) with v
  end.

(** The long-press detection of a call made with the latch clear. *)
Lemma getAction_sequence_clear k index ai h :
  isValid ai = false ->
  getAction_sequence k index ai h =
  let second := Z.rem (index + ACTION_HISTORY_BUF_LEN - 1) ACTION_HISTORY_BUF_LEN in
  let third := Z.rem (index + ACTION_HISTORY_BUF_LEN - 2) ACTION_HISTORY_BUF_LEN in
  if bool_decide (hist_get h index = hist_get h second /\
                  hist_get h second = hist_get h third)
     && bool_decide (k = UP \/ k = DOWN)
  then (set_active (if decide (k = UP) then GO_FORWORD else RETURN)
                   (set_isValid true ai),
        hist_set (hist_set h second UNKNOWN) third UNKNOWN)
  else (if decide (k = UNKNOWN) then ai
        else set_active k (set_isValid true ai), h).
Proof.
  intros Hval. unfold getAction_sequence. rewrite Hval. cbn [negb]. cbv zeta.
  repeat case_bool_decide; cbn [andb]; destruct k;
    repeat case_decide; try congruence; try reflexivity;
    exfalso; intuition congruence.
Qed.

(** C2.  In a state whose latch is clear, [getAction] writes the kind [k]
    it computed into the next slot; if then the three most recent slots
    (current, previous, two before, indices mod 5) are equal and [k] is
    [UP] the latch becomes [GO_FORWORD] and valid, if [k] is [DOWN] it
    becomes [RETURN] and valid; exactly in these two cases the two older
    slots are reset to [UNKNOWN] while the newest keeps [k]; the two other
    slots of the buffer keep what they held before the call. *)
Theorem getAction_long_press (b : Board) :
  hist_ok (imu b) ->
  isValid (action_info (imu b)) = false ->
  let k := getAction_kind b in
  let index := (act_info_history_ind (imu b) + 1) mod 5 in
  let second := (index + 4) mod 5 in
  let third := (index + 3) mod 5 in
  let h := hist_set (act_info_history (imu b)) index k in
  let same3 := hist_get h index = hist_get h second /\
               hist_get h second = hist_get h third in
  let b' := getAction b in
  let h' := act_info_history (imu b') in
  act_info_history_ind (imu b') = index /\
  hist_get h index = Some k /\
  (same3 -> k = UP ->
     active (action_info (imu b')) = GO_FORWORD /\
     isValid (action_info (imu b')) = true) /\
  (same3 -> k = DOWN ->
     active (action_info (imu b')) = RETURN /\
     isValid (action_info (imu b')) = true) /\
  (same3 /\ (k = UP \/ k = DOWN) ->
     h' = hist_set (hist_set h second UNKNOWN) third UNKNOWN /\
     hist_get h' index = Some k /\
     hist_get h' second = Some UNKNOWN /\
     hist_get h' third = Some UNKNOWN) /\
  (~ (same3 /\ (k = UP \/ k = DOWN)) -> h' = h) /\
  (forall j, 0 <= j < 5 -> j <> index -> j <> second -> j <> third ->
     hist_get h' j = hist_get (act_info_history (imu b)) j).
Proof.
  intros [Hlen Hind] Hval. cbv zeta.
  rewrite getAction_eq. cbv zeta.
  rewrite next_index_mod by assumption.
  generalize (getAction_kind b). intros k.
  destruct b as [[lut o ai h i] d st w]. cbn [imu action_info act_info_history
    act_info_history_ind fst snd] in *.
  rewrite getAction_sequence_clear by assumption.
  unfold hist_get, hist_set.
  ring_cases Hlen Hind; eval_indices.
  all: cbn -[decide bool_decide].
  all: split; [reflexivity|]; split; [reflexivity|].
  all: case_bool_decide; [case_bool_decide|]; cbn [andb fst snd].
  all: repeat split.
  all: try (intros; try subst k; try case_decide;
            (reflexivity || congruence || tauto)).
  all: try (intros j Hj; destruct (index_cases j Hj) as [->|[->|[->|[->| ->]]]];
            intros; (reflexivity || lia)).
Qed.

Lemma getAction_long_press_witness :
  hist_ok (imu two_up_board) /\
  isValid (action_info (imu two_up_board)) = false /\
  active (action_info (imu (getAction two_up_board))) = GO_FORWORD /\
  isValid (action_info (imu (getAction two_up_board))) = true /\
  act_info_history (imu (getAction two_up_board))
    = [UNKNOWN; UNKNOWN; UP; UNKNOWN; UNKNOWN].
Proof.
  assert (Hok : hist_ok (imu two_up_board)).
  { split; [reflexivity | cbn; unfold ACTION_HISTORY_BUF_LEN; lia]. }
  pose proof (getAction_long_press two_up_board Hok eq_refl) as H.
  cbv zeta in H. destruct H as (_ & _ & Hup & _ & Hclr & _).
  split; [exact Hok|]. split; [reflexivity|].
  destruct Hup as [Ha Hv]; [split; reflexivity | reflexivity |].
  destruct Hclr as [Hh _]; [repeat split; left; reflexivity|].
  split; [exact Ha|]. split; [exact Hv|].
  rewrite Hh. reflexivity.
Defined.

(** ** Three [UP] samples in a row *)

Lemma getAction_kind_up (b : Board) :
  m_ay (next_virtual b) = 0 -> m_ax (next_virtual b) = 5500 ->
  getAction_kind b = UP.
Proof.
  intros Hy Hx. rewrite getAction_kind_cascade. cbv zeta.
  rewrite Hy, Hx. reflexivity.
Qed.

(** One [getAction] call, given the kind it computes. *)
Lemma getAction_step (b : Board) (k : ACTIVE_TYPE) :
  getAction_kind b = k ->
  getAction b =
  let index := Z.rem (act_info_history_ind (imu b) + 1) ACTION_HISTORY_BUF_LEN in
  let r := getAction_sequence k index (action_info (imu b))
             (hist_set (act_info_history (imu b)) index k) in
  mkBoard (mkIMU (last_update_time (imu b)) (order (imu b)) (fst r) (snd r) index)
          (encoder_diff b) (encoder_state b)
          (mkWorld (sensor (world b)) (S (reads (world b)))
                   (clock (world b)) (waits (world b))).
Proof. intros <-. apply getAction_eq. Qed.

(** C3, what the code does without a reset of the latch: the run does not
    end in [GO_FORWORD] with two of the three written slots (0, 1, 2)
    reset; it ends in [UP] with the three slots holding [UP]. *)
Lemma getAction_three_up_no_long_press :
  ~ (active (action_info (imu three_up_run)) = GO_FORWORD /\
     isValid (action_info (imu three_up_run)) = true /\
     long_time (action_info (imu three_up_run)) = true /\
     exists i j, 0 <= i < j /\ j < 3 /\
       hist_get (act_info_history (imu three_up_run)) i = Some UNKNOWN /\
       hist_get (act_info_history (imu three_up_run)) j = Some UNKNOWN) /\
  active (action_info (imu three_up_run)) = UP /\
  isValid (action_info (imu three_up_run)) = true /\
  act_info_history (imu three_up_run) = [UP; UP; UP; UNKNOWN; UNKNOWN].
Proof.
  split; [|repeat split].
  intros [H _]. vm_compute in H. discriminate H.
Qed.

(** C3 as amended.  From the constructed engine (any orientation, counter
    and press state), with three sensor readings whose virtual sample has
    ay = 0 and ax = 5500, and a caller that between the calls either
    clears the latch or does nothing:
    - the first [getAction] call latches [UP] with [isValid] and
      [long_time] true and writes slot 0;
    - the second call leaves the event at [UP], valid and sustained, and
      writes slot 1, whether or not the latch was cleared after the first
      call;
    - if the latch is not cleared after the second call, the third call
      keeps [UP], valid and sustained, and the three slots written all
      hold [UP], none reset;
    - the third call latches [GO_FORWORD], valid and sustained, and
      resets the two older of the three slots to [UNKNOWN] exactly when
      the latch was cleared after the second call, whether or not it was
      also cleared after the first. *)
Theorem getAction_three_up (o d : Z) (st : lv_indev_state_t) (w : World)
    (c1 c2 : bool) :
  (forall n, (n < 3)%nat ->
     m_ay (virtual_at o w (reads w + n)) = 0 /\
     m_ax (virtual_at o w (reads w + n)) = 5500) ->
  let b0 := mkBoard (setOrder o IMU_new) d st w in
  let b1 := getAction b0 in
  let b2 := getAction (clear_latch_if c1 b1) in
  let b3 := getAction (clear_latch_if c2 b2) in
  (action_info (imu b1) = mkImuAction UP true true 0 0 0 0 0 0 /\
   act_info_history (imu b1) = [UP; UNKNOWN; UNKNOWN; UNKNOWN; UNKNOWN] /\
   act_info_history_ind (imu b1) = 0) /\
  (action_info (imu b2) = mkImuAction UP true true 0 0 0 0 0 0 /\
   act_info_history (imu b2) = [UP; UP; UNKNOWN; UNKNOWN; UNKNOWN] /\
   act_info_history_ind (imu b2) = 1) /\
  (action_info (imu b3)
     = mkImuAction (if c2 then GO_FORWORD else UP) true true 0 0 0 0 0 0 /\
   act_info_history (imu b3)
     = (if c2 then [UNKNOWN; UNKNOWN; UP; UNKNOWN; UNKNOWN]
        else [UP; UP; UP; UNKNOWN; UNKNOWN]) /\
   act_info_history_ind (imu b3) = 2) /\
  (active (action_info (imu b3)) = GO_FORWORD <-> c2 = true).
Proof.
  intros H b0 b1 b2 b3.
  destruct (H 0%nat ltac:(lia)) as [Hy0 Hx0].
  destruct (H 1%nat ltac:(lia)) as [Hy1 Hx1].
  destruct (H 2%nat ltac:(lia)) as [Hy2 Hx2].
  rewrite Nat.add_0_r in Hy0, Hx0.
  replace (reads w + 1)%nat with (S (reads w)) in Hy1, Hx1 by lia.
  replace (reads w + 2)%nat with (S (S (reads w))) in Hy2, Hx2 by lia.
  pose (w1 := mkWorld (sensor w) (S (reads w)) (clock w) (waits w)).
  pose (w2 := mkWorld (sensor w) (S (S (reads w))) (clock w) (waits w)).
  assert (E1 : b1 =
    mkBoard (mkIMU 0 o (mkImuAction UP true true 0 0 0 0 0 0)
               [UP; UNKNOWN; UNKNOWN; UNKNOWN; UNKNOWN] 0) d st w1).
  { unfold b1. rewrite (getAction_step b0 UP); [reflexivity|].
    apply getAction_kind_up; assumption. }
  assert (E2 : b2 =
    mkBoard (mkIMU 0 o (mkImuAction UP true true 0 0 0 0 0 0)
               [UP; UP; UNKNOWN; UNKNOWN; UNKNOWN] 1) d st w2).
  { unfold b2. rewrite E1.
    destruct c1; cbn [clear_latch_if];
      (rewrite (getAction_step _ UP);
       [reflexivity | apply getAction_kind_up; assumption]). }
  assert (E3 : action_info (imu b3)
                 = mkImuAction (if c2 then GO_FORWORD else UP)
                               true true 0 0 0 0 0 0 /\
               act_info_history (imu b3)
                 = (if c2 then [UNKNOWN; UNKNOWN; UP; UNKNOWN; UNKNOWN]
                    else [UP; UP; UP; UNKNOWN; UNKNOWN]) /\
               act_info_history_ind (imu b3) = 2).
  { unfold b3. rewrite E2.
    destruct c2; cbn [clear_latch_if];
      (rewrite (getAction_step _ UP);
       [repeat split | apply getAction_kind_up; assumption]). }
  split; [rewrite E1; repeat split|].
  split; [rewrite E2; repeat split|].
  split; [exact E3|].
  destruct E3 as (-> & _). destruct c2; cbn [active]; split; congruence.
Qed.

Lemma getAction_three_up_witness :
  let w := world_of [up_sample; up_sample; up_sample] 0 in
  let b0 := mkBoard (setOrder 0 IMU_new) 0 LV_INDEV_STATE_REL w in
  active (action_info (imu (getAction (getAction (getAction b0))))) = UP /\
  active (action_info (imu
    (getAction (clear_latch (getAction (getAction b0))))))
    = GO_FORWORD /\
  active (action_info (imu
    (getAction (getAction (clear_latch (getAction b0))))))
    = UP.
Proof.
  cbv zeta.
  assert (H : forall n, (n < 3)%nat ->
     m_ay (virtual_at 0 (world_of [up_sample; up_sample; up_sample] 0)
             (reads (world_of [up_sample; up_sample; up_sample] 0) + n)) = 0 /\
     m_ax (virtual_at 0 (world_of [up_sample; up_sample; up_sample] 0)
             (reads (world_of [up_sample; up_sample; up_sample] 0) + n)) = 5500).
  { intros n Hn. destruct n as [|[|[|n]]]; [split; reflexivity ..| lia]. }
  destruct (getAction_three_up 0 0 LV_INDEV_STATE_REL _ false false H)
    as (_ & _ & (Ha & _) & _).
  destruct (getAction_three_up 0 0 LV_INDEV_STATE_REL _ false true H)
    as (_ & _ & (Hb & _) & _).
  destruct (getAction_three_up 0 0 LV_INDEV_STATE_REL _ true false H)
    as (_ & _ & (Hc & _) & _).
  split; [exact (f_equal active Ha)|].
  split; [exact (f_equal active Hb) | exact (f_equal active Hc)].
Defined.

(** ** [update]: the interval gate *)

Lemma read_action_info_eq (b : Board) :
  read_action_info b =
  mkBoard (mkIMU (last_update_time (imu b)) (order (imu b))
             (store_motion (next_virtual b) (action_info (imu b)))
             (act_info_history (imu b)) (act_info_history_ind (imu b)))
          (encoder_diff b) (encoder_state b)
          (mkWorld (sensor (world b)) (S (reads (world b)))
                   (clock (world b)) (waits (world b))).
Proof.
  unfold read_action_info, getVirtureMotion6, getMotion6.
  rewrite apply_order_transform. reflexivity.
Qed.

Lemma interval_elapsed_read (interval : Z) (b : Board) :
  interval_elapsed interval (read_action_info b) = interval_elapsed interval b.
Proof. rewrite read_action_info_eq. reflexivity. Qed.

Lemma update_not_elapsed (interval : Z) (b : Board) :
  interval_elapsed interval b = false ->
  update interval b = read_action_info b.
Proof.
  intros H. unfold update. now rewrite interval_elapsed_read, H.
Qed.

Lemma update_elapsed_time (interval : Z) (b : Board) :
  interval_elapsed interval b = true ->
  exists b1, update interval b = set_last_update_time (int32 (millis (world b1))) b1.
Proof.
  intros H. unfold update. rewrite interval_elapsed_read, H. eauto.
Qed.

(** C4, what the code does: the second call within the interval is not a
    no-op, it stores the new virtual sample in [action_info]. *)
Lemma update_within_interval_not_noop :
  interval_elapsed 50 after_first_update = false /\
  v_ay (action_info (imu after_first_update)) = 4500 /\
  v_ay (action_info (imu (update 50 after_first_update))) = 0 /\
  update 50 after_first_update <> after_first_update.
Proof.
  assert (H : v_ay (action_info (imu (update 50 after_first_update))) = 0)
    by reflexivity.
  repeat split; try reflexivity.
  intros E. rewrite E in H. vm_compute in H. discriminate H.
Qed.

(** A call inside the interval, in one piece. *)
Lemma update_gate_closed (interval : Z) (b : Board) :
  interval_elapsed interval b = false ->
  update interval b =
    mkBoard (mkIMU (last_update_time (imu b)) (order (imu b))
               (mkImuAction (active (action_info (imu b)))
                            (isValid (action_info (imu b)))
                            (long_time (action_info (imu b)))
                            (m_ax (next_virtual b)) (m_ay (next_virtual b))
                            (m_az (next_virtual b)) (m_gx (next_virtual b))
                            (m_gy (next_virtual b)) (m_gz (next_virtual b)))
               (act_info_history (imu b)) (act_info_history_ind (imu b)))
            (encoder_diff b) (encoder_state b)
            (mkWorld (sensor (world b)) (S (reads (world b)))
                     (clock (world b)) (waits (world b))).
Proof.
  intros H. rewrite update_not_elapsed by assumption.
  apply read_action_info_eq.
Qed.

(** C4 as amended.  A call of [update(interval)] made when
    [millis() - last_update_time] has not exceeded the interval reads the
    sensor once and stores the new virtual sample in the [v_*] fields of
    [action_info]; it changes nothing else: no reclassification (kind,
    valid and sustained flags unchanged), [last_update_time] unchanged,
    encoder counter and press latch unchanged, history and its index
    unchanged, no wait.  Whenever a call changes [last_update_time], the
    interval had elapsed. *)
Theorem update_within_interval (interval : Z) (b : Board) :
  (interval_elapsed interval b = false ->
   update interval b =
    mkBoard (mkIMU (last_update_time (imu b)) (order (imu b))
               (mkImuAction (active (action_info (imu b)))
                            (isValid (action_info (imu b)))
                            (long_time (action_info (imu b)))
                            (m_ax (next_virtual b)) (m_ay (next_virtual b))
                            (m_az (next_virtual b)) (m_gx (next_virtual b))
                            (m_gy (next_virtual b)) (m_gz (next_virtual b)))
               (act_info_history (imu b)) (act_info_history_ind (imu b)))
            (encoder_diff b) (encoder_state b)
            (mkWorld (sensor (world b)) (S (reads (world b)))
                     (clock (world b)) (waits (world b)))) /\
  (last_update_time (imu (update interval b)) <> last_update_time (imu b) ->
   interval_elapsed interval b = true).
Proof.
  split; [apply update_gate_closed|].
  intros H. destruct (interval_elapsed interval b) eqn:E; [reflexivity|].
  exfalso. apply H. rewrite update_gate_closed by assumption. reflexivity.
Qed.

Lemma update_within_interval_witness :
  update 50 after_first_update =
    mkBoard (mkIMU 100 0 (mkImuAction TURN_LEFT true true 0 0 0 0 0 0)
               [UNKNOWN; UNKNOWN; UNKNOWN; UNKNOWN; UNKNOWN] 4)
            (-1) LV_INDEV_STATE_REL
            (mkWorld (sensor (world after_first_update)) 2 100 []) /\
  interval_elapsed 50 (boot (world_of [turn_sample; zero_motion] 100)) = true.
Proof.
  split.
  - exact (proj1 (update_within_interval 50 after_first_update) eq_refl).
  - apply (proj2 (update_within_interval 50
                    (boot (world_of [turn_sample; zero_motion] 100)))).
    vm_compute. discriminate.
Defined.

(** ** The latch *)

Lemma getAction_sequence_latched k index ai h :
  isValid ai = true -> getAction_sequence k index ai h = (ai, h).
Proof. intros H. unfold getAction_sequence. now rewrite H. Qed.

Lemma getAction_latched (b : Board) :
  isValid (action_info (imu b)) = true ->
  action_info (imu (getAction b)) = action_info (imu b) /\
  act_info_history (imu (getAction b))
    = hist_set (act_info_history (imu b))
        (Z.rem (act_info_history_ind (imu b) + 1) ACTION_HISTORY_BUF_LEN)
        (getAction_kind b).
Proof.
  intros H. rewrite getAction_eq. cbv zeta.
  rewrite getAction_sequence_latched by assumption. split; reflexivity.
Qed.

Lemma update_latched (interval : Z) (b : Board) :
  isValid (action_info (imu b)) = true ->
  active (action_info (imu (update interval b))) = active (action_info (imu b)) /\
  isValid (action_info (imu (update interval b))) = true /\
  long_time (action_info (imu (update interval b)))
    = long_time (action_info (imu b)) /\
  encoder_diff (update interval b) = encoder_diff b /\
  encoder_state (update interval b) = encoder_state b.
Proof.
  intros H. unfold update. rewrite interval_elapsed_read.
  rewrite read_action_info_eq.
  destruct (interval_elapsed interval b);
    cbn [imu action_info isValid store_motion negb]; rewrite ?H;
    cbn [imu action_info isValid store_motion negb]; rewrite ?H;
    repeat split; assumption.
Qed.

(** C6.  Once [action_info.isValid] is true, no [getAction] call changes
    [action_info] (kind, valid flag, sustained flag)
    whatever it classifies, and the long-press check is not run: the call
    only appends the kind to the history.  More generally no sequence of
    engine calls ([getAction] or [update]) changes the latched kind or
    clears the valid flag. *)
Theorem latch_holds (b : Board) :
  isValid (action_info (imu b)) = true ->
  (forall n : nat,
     action_info (imu (Nat.iter n getAction b)) = action_info (imu b)) /\
  act_info_history (imu (getAction b))
    = hist_set (act_info_history (imu b))
        (Z.rem (act_info_history_ind (imu b) + 1) ACTION_HISTORY_BUF_LEN)
        (getAction_kind b) /\
  (forall cs : list call,
     active (action_info (imu (run cs b))) = active (action_info (imu b)) /\
     isValid (action_info (imu (run cs b))) = true).
Proof.
  intros H. split; [|split].
  - induction n as [|n IH]; [reflexivity|].
    change (Nat.iter (S n) getAction b) with (getAction (Nat.iter n getAction b)).
    destruct (getAction_latched (Nat.iter n getAction b)) as [E _].
    + now rewrite IH.
    + now rewrite E.
  - apply getAction_latched, H.
  - intros cs. revert b H. induction cs as [|c cs IH]; intros b H.
    + split; [reflexivity | exact H].
    + cbn [run foldl]. fold (run cs (do_call c b)).
      assert (Hc : active (action_info (imu (do_call c b)))
                   = active (action_info (imu b)) /\
                   isValid (action_info (imu (do_call c b))) = true).
      { destruct c as [|interval]; cbn [do_call].
        - destruct (getAction_latched b H) as [E _]. rewrite E. now split.
        - destruct (update_latched interval b H) as (Ea & Ev & _). now split. }
      destruct Hc as [Ea Ev]. destruct (IH _ Ev) as [Ia Iv].
      split; [now rewrite Ia | exact Iv].
Qed.

Lemma latch_holds_witness :
  isValid (action_info (imu latched_board)) = true /\
  action_info (imu (Nat.iter 3 getAction latched_board))
    = mkImuAction TURN_LEFT true true 0 4500 0 0 0 0 /\
  act_info_history (imu (Nat.iter 3 getAction latched_board))
    = [UP; UP; UP; UNKNOWN; UNKNOWN] /\
  active (action_info (imu
    (run [CallGetAction; CallUpdate 50; CallGetAction] latched_board)))
    = TURN_LEFT.
Proof.
  destruct (latch_holds latched_board eq_refl) as (Hn & _ & Hr).
  split; [reflexivity|]. split; [exact (Hn 3%nat)|].
  split; [reflexivity|].
  exact (proj1 (Hr [CallGetAction; CallUpdate 50; CallGetAction])).
Defined.

(** ** The ring-buffer index *)

Lemma getAction_iter_ind (n : nat) (b : Board) :
  0 <= act_info_history_ind (imu b) < ACTION_HISTORY_BUF_LEN ->
  act_info_history_ind (imu (Nat.iter n getAction b))
  = (act_info_history_ind (imu b) + Z.of_nat n) mod 5.
Proof.
  intros H. induction n as [|n IH].
  - change (Nat.iter 0 getAction b) with b.
    rewrite Z.add_0_r. symmetry. apply Z.mod_small. exact H.
  - change (Nat.iter (S n) getAction b) with (getAction (Nat.iter n getAction b)).
    rewrite getAction_ind, IH.
    rewrite next_index_mod
      by (unfold ACTION_HISTORY_BUF_LEN; apply Z.mod_pos_bound; lia).
    rewrite Zplus_mod_idemp_l. f_equal. lia.
Qed.

(** C7.  With the index in range (as the constructor leaves it and every
    call keeps it), each [getAction] call moves the write index to
    [(index + 1) mod 5] whatever the input and the latch; the five slots
    written by five consecutive calls are pairwise different and the
    index is back at its start after the fifth; the constructor fills all
    five slots with [UNKNOWN]. *)
Theorem getAction_index_cycle (b : Board) :
  0 <= act_info_history_ind (imu b) < ACTION_HISTORY_BUF_LEN ->
  act_info_history_ind (imu (getAction b))
    = (act_info_history_ind (imu b) + 1) mod 5 /\
  0 <= act_info_history_ind (imu (getAction b)) < ACTION_HISTORY_BUF_LEN /\
  act_info_history_ind (imu (Nat.iter 5 getAction b))
    = act_info_history_ind (imu b) /\
  NoDup (map (fun n => act_info_history_ind (imu (Nat.iter n getAction b)))
             [1; 2; 3; 4; 5]%nat) /\
  act_info_history IMU_new = [UNKNOWN; UNKNOWN; UNKNOWN; UNKNOWN; UNKNOWN] /\
  0 <= act_info_history_ind IMU_new < ACTION_HISTORY_BUF_LEN.
Proof.
  intros H.
  assert (E1 : act_info_history_ind (imu (getAction b))
               = (act_info_history_ind (imu b) + 1) mod 5)
    by (rewrite getAction_ind; apply next_index_mod, H).
  split; [exact E1|]. split.
  { rewrite E1. unfold ACTION_HISTORY_BUF_LEN. apply Z.mod_pos_bound. lia. }
  split.
  { rewrite getAction_iter_ind by assumption.
    unfold ACTION_HISTORY_BUF_LEN in H.
    change (Z.of_nat 5) with (1 * 5). rewrite Z.mod_add by lia.
    apply Z.mod_small. exact H. }
  split.
  { cbn [map]. rewrite !getAction_iter_ind by assumption.
    destruct (index_cases _ H) as [E|[E|[E|[E|E]]]]; rewrite E;
      vm_compute; repeat constructor;
      rewrite ?list_elem_of_In; cbn; intuition discriminate. }
  split; [reflexivity|]. cbn. unfold ACTION_HISTORY_BUF_LEN. lia.
Qed.

Lemma getAction_index_cycle_witness :
  act_info_history_ind (imu (getAction (boot (world_of [] 0)))) = 0 /\
  act_info_history_ind (imu (Nat.iter 5 getAction (boot (world_of [] 0)))) = 4.
Proof.
  assert (H : 0 <= act_info_history_ind (imu (boot (world_of [] 0)))
              < ACTION_HISTORY_BUF_LEN)
    by (cbn; unfold ACTION_HISTORY_BUF_LEN; lia).
  destruct (getAction_index_cycle (boot (world_of [] 0)) H)
    as (E1 & _ & E5 & _).
  split; [exact E1 | exact E5].
Defined.

(** ** [update]: classification and encoder bridge *)

(** An [update] call that passes the gate with the latch clear, in one
    piece: [v] is the virtual sample read on entry, [v2] the one read after
    the wait. *)
Lemma update_elapsed_clear (interval : Z) (b : Board) :
  interval_elapsed interval b = true ->
  isValid (action_info (imu b)) = false ->
  update interval b =
  let v := next_virtual b in
  let v2 := second_virtual b in
  let ai := store_motion v (action_info (imu b)) in
  let w1 := mkWorld (sensor (world b)) (S (reads (world b)))
                    (clock (world b)) (waits (world b)) in
  let w2 := mkWorld (sensor (world b)) (S (S (reads (world b))))
                    (clock (world b) + 500) (waits (world b) ++ [500]) in
  let mk a d st w :=
    mkBoard (mkIMU (int32 (millis w)) (order (imu b)) a
                   (act_info_history (imu b)) (act_info_history_ind (imu b)))
            d st w in
  if 4000 <? m_ay v then
    mk (set_active TURN_LEFT (set_isValid true ai))
       (int32 (encoder_diff b - 1)) (encoder_state b) w1
  else if m_ay v <? -4000 then
    mk (set_active TURN_RIGHT (set_isValid true ai))
       (int32 (encoder_diff b + 1)) (encoder_state b) w1
  else if (1000 <? m_ay v) || (m_ay v <? -1000) then
    mk (set_active SHAKE (set_isValid true ai))
       (int32 (encoder_diff b - 1)) (encoder_state b) w1
  else if 5000 <? m_ax v then
    if 5000 <? m_ax v2 then
      mk (set_active GO_FORWORD (set_isValid true (store_motion v2 ai)))
         (encoder_diff b) LV_INDEV_STATE_PR w2
    else
      mk (set_active UP (set_isValid true (store_motion v2 ai)))
         (encoder_diff b) (encoder_state b) w2
  else if m_ax v <? -5000 then
    if m_ax v2 <? -5000 then
      mk (set_active RETURN (set_isValid true (store_motion v2 ai)))
         (encoder_diff b) LV_INDEV_STATE_REL w2
    else
      mk (set_active DOWN (set_isValid true (store_motion v2 ai)))
         (encoder_diff b) (encoder_state b) w2
  else if (1000 <? m_ax v) || (m_ax v <? -1000) then
    mk (set_active SHAKE (set_isValid true ai))
       (encoder_diff b) (encoder_state b) w1
  else
    mk (set_isValid false ai) (encoder_diff b) (encoder_state b) w1.
Proof.
  intros Hel Hval. unfold update.
  rewrite interval_elapsed_read, Hel, read_action_info_eq.
  cbn [imu action_info isValid store_motion]. rewrite Hval. cbn [negb].
  unfold update_rotation.
  cbn [imu action_info v_ay v_ax store_motion set_action_info set_encoder_diff
       set_active set_isValid isValid negb encoder_diff encoder_state world
       last_update_time order act_info_history act_info_history_ind].
  cbv zeta. set (v := next_virtual b).
  destruct (4000 <? m_ay v); [reflexivity|].
  destruct (m_ay v <? -4000); [reflexivity|].
  destruct ((1000 <? m_ay v) || (m_ay v <? -1000)); [reflexivity|].
  cbn [imu action_info isValid negb].
  unfold update_linear.
  cbn [imu action_info v_ay v_ax store_motion set_action_info set_encoder_diff
       set_active set_isValid isValid negb encoder_diff encoder_state world
       last_update_time order act_info_history act_info_history_ind set_world].
  destruct (5000 <? m_ax v).
  { rewrite read_action_info_eq.
    cbn [imu action_info v_ax store_motion].
    change (next_virtual _) with (second_virtual b).
    destruct (5000 <? m_ax (second_virtual b)); reflexivity. }
  destruct (m_ax v <? -5000).
  { rewrite read_action_info_eq.
    cbn [imu action_info v_ax store_motion].
    change (next_virtual _) with (second_virtual b).
    destruct (m_ax (second_virtual b) <? -5000); reflexivity. }
  destruct ((1000 <? m_ax v) || (m_ax v <? -1000)); reflexivity.
Qed.

Ltac decide_ltb :=
  repeat match goal with
  | |- context [?x <? ?y] => destruct (Z.ltb_spec x y); try lia
  end;
  cbn [orb andb].

(** C8.  In an [update] call that passes the gate with the latch clear
    and no rotation branch taken (|ay| <= 1000): if the virtual sample has
    ax > 5000 the event is latched valid, exactly one [delay(500)] and one
    further sensor reading are made, and the kind is [GO_FORWORD] with
    [encoder_state] pressed if and only if the second sample also has
    ax > 5000, otherwise the kind is [UP] and [encoder_state] is as
    before; symmetrically for ax < -5000 with [DOWN], [RETURN] and
    released.  The counter is not touched. *)
Theorem update_linear_confirmation (interval : Z) (b : Board) :
  interval_elapsed interval b = true ->
  isValid (action_info (imu b)) = false ->
  -1000 <= m_ay (next_virtual b) <= 1000 ->
  let ax := m_ax (next_virtual b) in
  let ax2 := m_ax (second_virtual b) in
  let b' := update interval b in
  (5000 < ax ->
     isValid (action_info (imu b')) = true /\
     (5000 < ax2 ->
        active (action_info (imu b')) = GO_FORWORD /\
        encoder_state b' = LV_INDEV_STATE_PR) /\
     (ax2 <= 5000 ->
        active (action_info (imu b')) = UP /\
        encoder_state b' = encoder_state b) /\
     (active (action_info (imu b')) = GO_FORWORD <-> 5000 < ax2) /\
     waits (world b') = waits (world b) ++ [500] /\
     reads (world b') = S (S (reads (world b))) /\
     encoder_diff b' = encoder_diff b) /\
  (ax < -5000 ->
     isValid (action_info (imu b')) = true /\
     (ax2 < -5000 ->
        active (action_info (imu b')) = RETURN /\
        encoder_state b' = LV_INDEV_STATE_REL) /\
     (-5000 <= ax2 ->
        active (action_info (imu b')) = DOWN /\
        encoder_state b' = encoder_state b) /\
     (active (action_info (imu b')) = RETURN <-> ax2 < -5000) /\
     waits (world b') = waits (world b) ++ [500] /\
     reads (world b') = S (S (reads (world b))) /\
     encoder_diff b' = encoder_diff b).
Proof.
  intros Hel Hval Hay ax ax2 b'. unfold b'.
  rewrite update_elapsed_clear by assumption. cbv zeta.
  fold ax ax2. split; intros Hax.
  - decide_ltb.
    + cbn. repeat split; try reflexivity; try (intros; lia).
    + cbn. repeat split; try reflexivity; try (intros; lia); discriminate.
  - decide_ltb.
    + cbn. repeat split; try reflexivity; try (intros; lia).
    + cbn. repeat split; try reflexivity; try (intros; lia); discriminate.
Qed.

Lemma update_linear_confirmation_witness :
  (active (action_info (imu (update 50 up_twice))) = GO_FORWORD /\
   encoder_state (update 50 up_twice) = LV_INDEV_STATE_PR /\
   waits (world (update 50 up_twice)) = [500]) /\
  (active (action_info (imu (update 50 down_twice))) = RETURN /\
   encoder_state (update 50 down_twice) = LV_INDEV_STATE_REL /\
   waits (world (update 50 down_twice)) = [500]).
Proof.
  split.
  - assert (Hay : -1000 <= m_ay (next_virtual up_twice) <= 1000)
      by (vm_compute; split; discriminate).
    destruct (update_linear_confirmation 50 up_twice eq_refl eq_refl Hay)
      as [Hup _].
    destruct Hup as (_ & Hf & _ & _ & Hw & _); [reflexivity|].
    destruct Hf as [Ha Hs]; [reflexivity|].
    split; [exact Ha|]. split; [exact Hs | exact Hw].
  - assert (Hay : -1000 <= m_ay (next_virtual down_twice) <= 1000)
      by (vm_compute; split; discriminate).
    destruct (update_linear_confirmation 50 down_twice eq_refl eq_refl Hay)
      as [_ Hdown].
    destruct Hdown as (_ & Hf & _ & _ & Hw & _); [reflexivity|].
    destruct Hf as [Ha Hs]; [reflexivity|].
    split; [exact Ha|]. split; [exact Hs | exact Hw].
Defined.

(** C9.  In an [update] call that passes the gate with the latch clear:
    [TURN_LEFT] decrements [encoder_diff] by one, [TURN_RIGHT] increments
    it by one, a [SHAKE] of the rotation branch decrements it by one (in
    [int32_t] arithmetic, so exactly one away from overflow) and these
    leave [encoder_state] alone; a confirmed [GO_FORWORD] sets
    [encoder_state] to pressed, a confirmed [RETURN] sets it to released,
    both leaving the counter; an unconfirmed [UP] or [DOWN], a [SHAKE] of
    the linear branch and no gesture at all leave both unchanged. *)
Theorem update_encoder_bridge (interval : Z) (b : Board) :
  interval_elapsed interval b = true ->
  isValid (action_info (imu b)) = false ->
  let ay := m_ay (next_virtual b) in
  let ax := m_ax (next_virtual b) in
  let ax2 := m_ax (second_virtual b) in
  let d := encoder_diff b in
  let b' := update interval b in
  let kind := active (action_info (imu b')) in
  let valid := isValid (action_info (imu b')) in
  (4000 < ay ->
     kind = TURN_LEFT /\ valid = true /\
     encoder_diff b' = int32 (d - 1) /\
     (INT32_MIN < d <= INT32_MAX -> encoder_diff b' = d - 1) /\
     encoder_state b' = encoder_state b) /\
  (ay < -4000 ->
     kind = TURN_RIGHT /\ valid = true /\
     encoder_diff b' = int32 (d + 1) /\
     (INT32_MIN <= d < INT32_MAX -> encoder_diff b' = d + 1) /\
     encoder_state b' = encoder_state b) /\
  (1000 < ay <= 4000 \/ -4000 <= ay < -1000 ->
     kind = SHAKE /\ valid = true /\
     encoder_diff b' = int32 (d - 1) /\
     (INT32_MIN < d <= INT32_MAX -> encoder_diff b' = d - 1) /\
     encoder_state b' = encoder_state b) /\
  (-1000 <= ay <= 1000 ->
     (5000 < ax -> 5000 < ax2 ->
        kind = GO_FORWORD /\ valid = true /\
        encoder_state b' = LV_INDEV_STATE_PR /\ encoder_diff b' = d) /\
     (ax < -5000 -> ax2 < -5000 ->
        kind = RETURN /\ valid = true /\
        encoder_state b' = LV_INDEV_STATE_REL /\ encoder_diff b' = d) /\
     (5000 < ax -> ax2 <= 5000 ->
        kind = UP /\ valid = true /\ bridge_unchanged b b') /\
     (ax < -5000 -> -5000 <= ax2 ->
        kind = DOWN /\ valid = true /\ bridge_unchanged b b') /\
     (1000 < ax <= 5000 \/ -5000 <= ax < -1000 ->
        kind = SHAKE /\ valid = true /\ bridge_unchanged b b') /\
     (-1000 <= ax <= 1000 ->
        kind = active (action_info (imu b)) /\ valid = false /\
        bridge_unchanged b b')).
Proof.
  intros Hel Hval ay ax ax2 d b' kind valid.
  unfold kind, valid, b', bridge_unchanged.
  rewrite update_elapsed_clear by assumption. cbv zeta.
  fold ay ax ax2 d.
  split; [|split; [|split]].
  - intros H. decide_ltb. cbn. repeat split.
    intros Hd. apply int32_id. lia.
  - intros H. decide_ltb. cbn. repeat split.
    intros Hd. apply int32_id. lia.
  - intros H. decide_ltb; cbn; repeat split;
      intros Hd; apply int32_id; lia.
  - intros H. repeat split; intros; decide_ltb; cbn; reflexivity.
Qed.

Lemma update_encoder_bridge_witness :
  active (action_info (imu (update 50 turn_board))) = TURN_LEFT /\
  encoder_diff (update 50 turn_board) = 6 /\
  active (action_info (imu (update 50 up_twice))) = GO_FORWORD /\
  encoder_state (update 50 up_twice) = LV_INDEV_STATE_PR.
Proof.
  destruct (update_encoder_bridge 50 turn_board eq_refl eq_refl)
    as (Hleft & _).
  destruct Hleft as (Hk & _ & _ & Hd & _); [reflexivity|].
  destruct (update_encoder_bridge 50 up_twice eq_refl eq_refl)
    as (_ & _ & _ & Hlin).
  destruct Hlin as (Hf & _); [vm_compute; split; discriminate|].
  destruct Hf as (Hk' & _ & Hs & _); [reflexivity | reflexivity |].
  split; [exact Hk|]. split.
  - apply Hd. vm_compute. split; [reflexivity | discriminate].
  - split; [exact Hk' | exact Hs].
Defined.

(** C10.  A [getAction] call, and any number of them, leaves
    [encoder_diff] and [encoder_state] as they are, also when it promotes
    to [GO_FORWORD]; [update] is the entry point that changes them. *)
Theorem getAction_leaves_encoder (b : Board) :
  (encoder_diff (getAction b) = encoder_diff b /\
   encoder_state (getAction b) = encoder_state b) /\
  (forall n : nat,
     encoder_diff (Nat.iter n getAction b) = encoder_diff b /\
     encoder_state (Nat.iter n getAction b) = encoder_state b) /\
  (active (action_info (imu (getAction two_up_board))) = GO_FORWORD /\
   encoder_state (getAction two_up_board) = LV_INDEV_STATE_REL /\
   encoder_diff (getAction two_up_board) = 0) /\
  encoder_diff (update 50 turn_board) <> encoder_diff turn_board /\
  encoder_state (update 50 up_twice) <> encoder_state up_twice.
Proof.
  assert (Step : forall b0, encoder_diff (getAction b0) = encoder_diff b0 /\
                            encoder_state (getAction b0) = encoder_state b0).
  { intros b0. rewrite getAction_eq. split; reflexivity. }
  split; [apply Step|]. split.
  - induction n as [|n [IHd IHs]]; [split; reflexivity|].
    change (Nat.iter (S n) getAction b) with (getAction (Nat.iter n getAction b)).
    destruct (Step (Nat.iter n getAction b)) as [Ed Es].
    split; congruence.
  - split; [repeat split|]. split; vm_compute; discriminate.
Qed.

(** ** The last test of [getAction]'s linear block *)

(** C1, the code at two inputs.  On [stale_board] the current sample is
    all zeros, for which the cascade gives [UNKNOWN], yet [getAction]
    records and latches [SHAKE], because its last test reads the [v_ax]
    that [action_info] holds from the earlier [update].  On a freshly
    booted board whose sensor reads ax = 2000 the cascade gives [SHAKE]
    and [getAction] records [UNKNOWN]. *)
Theorem getAction_linear_shake_reads_action_info :
  (isValid (action_info (imu stale_board)) = false /\
   v_ax (action_info (imu stale_board)) = 2000 /\
   next_virtual stale_board = zero_motion /\
   classify 0 0 = UNKNOWN /\
   getAction_kind stale_board = SHAKE /\
   hist_get (act_info_history (imu (getAction stale_board))) 0 = Some SHAKE /\
   active (action_info (imu (getAction stale_board))) = SHAKE /\
   isValid (action_info (imu (getAction stale_board))) = true) /\
  (next_virtual (boot (world_of [shake_sample] 0)) = shake_sample /\
   classify 2000 0 = SHAKE /\
   getAction_kind (boot (world_of [shake_sample] 0)) = UNKNOWN /\
   isValid (action_info (imu (getAction (boot (world_of [shake_sample] 0)))))
     = false).
Proof. repeat split. Qed.

(** ** Further properties of the engine *)

(** [update] in one piece when the gate is open and the latch is set. *)
Lemma update_elapsed_latched (interval : Z) (b : Board) :
  interval_elapsed interval b = true ->
  isValid (action_info (imu b)) = true ->
  update interval b =
  mkBoard (mkIMU (int32 (millis (world b))) (order (imu b))
             (store_motion (next_virtual b) (action_info (imu b)))
             (act_info_history (imu b)) (act_info_history_ind (imu b)))
          (encoder_diff b) (encoder_state b)
          (mkWorld (sensor (world b)) (S (reads (world b)))
                   (clock (world b)) (waits (world b))).
Proof.
  intros Hel Hval. unfold update.
  rewrite interval_elapsed_read, Hel, read_action_info_eq.
  cbn [imu action_info isValid store_motion]. rewrite Hval. cbn [negb].
  cbn [imu action_info isValid store_motion]. rewrite Hval. reflexivity.
Qed.

(** [update] never touches the ring buffer nor the orientation. *)
Lemma update_ring (interval : Z) (b : Board) :
  act_info_history (imu (update interval b)) = act_info_history (imu b) /\
  act_info_history_ind (imu (update interval b)) = act_info_history_ind (imu b) /\
  order (imu (update interval b)) = order (imu b).
Proof.
  destruct (interval_elapsed interval b) eqn:Hel.
  - destruct (isValid (action_info (imu b))) eqn:Hval.
    + rewrite update_elapsed_latched by assumption. repeat split.
    + rewrite update_elapsed_clear by assumption. cbv zeta.
      repeat match goal with
      | |- context [if ?c then _ else _] => destruct c
      end; repeat split.
  - rewrite update_gate_closed by assumption. repeat split.
Qed.

Lemma do_call_hist_ok (c : call) (b : Board) :
  hist_ok (imu b) -> hist_ok (imu (do_call c b)).
Proof.
  intros H. destruct c as [|interval]; cbn [do_call].
  - apply getAction_hist_ok, H.
  - destruct (update_ring interval b) as (Eh & Ei & _).
    unfold hist_ok. rewrite Eh, Ei. exact H.
Qed.

Lemma run_cons (c : call) (cs : list call) (b : Board) :
  run (c :: cs) b = run cs (do_call c b).
Proof. reflexivity. Qed.

(** X1.  The ring buffer keeps five slots and an index within 0..4 over
    any sequence of engine calls, from the constructed engine in
    particular; [update] leaves the buffer and its index untouched. *)
Theorem run_keeps_ring (b : Board) (cs : list call) :
  hist_ok (imu b) ->
  hist_ok (imu (run cs b)) /\
  (forall w d st, hist_ok (imu (run cs (mkBoard IMU_new d st w)))) /\
  (forall interval,
     act_info_history (imu (update interval b)) = act_info_history (imu b) /\
     act_info_history_ind (imu (update interval b))
       = act_info_history_ind (imu b)).
Proof.
  assert (Run : forall cs0 b0, hist_ok (imu b0) -> hist_ok (imu (run cs0 b0))).
  { induction cs0 as [|c cs0 IH]; intros b0 H0; [exact H0|].
    rewrite run_cons. apply IH, do_call_hist_ok, H0. }
  intros H. split; [apply Run, H|]. split.
  - intros w d st. apply Run. exact IMU_new_hist_ok.
  - intros interval. destruct (update_ring interval b) as (Eh & Ei & _).
    split; assumption.
Qed.

Lemma run_keeps_ring_witness :
  hist_ok (imu (run [CallGetAction; CallUpdate 50; CallGetAction]
                    (boot (world_of [up_sample] 100)))).
Proof.
  assert (H : hist_ok (imu (boot (world_of [up_sample] 100))))
    by (split; [reflexivity | cbn; unfold ACTION_HISTORY_BUF_LEN; lia]).
  exact (proj1 (run_keeps_ring (boot (world_of [up_sample] 100))
                  [CallGetAction; CallUpdate 50; CallGetAction] H)).
Defined.

Lemma getAction_kind_short (b : Board) : short_kind (getAction_kind b).
Proof.
  rewrite getAction_kind_cascade. cbv zeta. unfold short_kind.
  repeat match goal with
  | |- context [if ?c then _ else _] => destruct c
  end; split; discriminate.
Qed.

Lemma Forall_insert_short (h : list ACTIVE_TYPE) (i : nat) (k : ACTIVE_TYPE) :
  Forall short_kind h -> short_kind k -> Forall short_kind (<[i:=k]> h).
Proof. intros Hh Hk. apply Forall_insert; assumption. Qed.

Lemma getAction_history_short (b : Board) :
  Forall short_kind (act_info_history (imu b)) ->
  Forall short_kind (act_info_history (imu (getAction b))).
Proof.
  intros H. rewrite getAction_eq. cbv zeta. cbn [imu act_info_history].
  assert (Hk := getAction_kind_short b).
  assert (Hu : short_kind UNKNOWN) by (split; discriminate).
  unfold getAction_sequence, hist_set.
  destruct (negb (isValid (action_info (imu b)))); cbn [snd];
    [|now apply Forall_insert_short].
  destruct (_ && _); cbn [snd]; [|now apply Forall_insert_short].
  destruct (decide (UP = getAction_kind b));
    [cbn [snd]; now repeat apply Forall_insert_short|].
  destruct (decide (DOWN = getAction_kind b));
    cbn [snd]; now repeat apply Forall_insert_short.
Qed.

(** X2.  The kind that [getAction] computes and writes into the history
    is never [GO_FORWORD] nor [RETURN]; so over any sequence of engine
    calls no history slot ever holds a long-press kind, if none did at the
    start (none does in the constructed engine). *)
Theorem history_holds_short_kinds (b : Board) (cs : list call) :
  Forall short_kind (act_info_history (imu b)) ->
  short_kind (getAction_kind b) /\
  Forall short_kind (act_info_history (imu (run cs b))) /\
  (forall w d st,
     Forall short_kind (act_info_history (imu (run cs (mkBoard IMU_new d st w))))).
Proof.
  assert (Run : forall cs0 b0, Forall short_kind (act_info_history (imu b0)) ->
                  Forall short_kind (act_info_history (imu (run cs0 b0)))).
  { induction cs0 as [|c cs0 IH]; intros b0 H0; [exact H0|].
    rewrite run_cons. apply IH. destruct c as [|interval]; cbn [do_call].
    - apply getAction_history_short, H0.
    - destruct (update_ring interval b0) as (Eh & _). now rewrite Eh. }
  intros H. split; [apply getAction_kind_short|]. split; [apply Run, H|].
  intros w d st. apply Run. cbn.
  repeat constructor; discriminate.
Qed.

Lemma history_holds_short_kinds_witness :
  Forall short_kind (act_info_history (imu
    (run [CallGetAction; CallGetAction] two_up_board))).
Proof.
  assert (H : Forall short_kind (act_info_history (imu two_up_board))).
  { unfold two_up_board. cbn [imu act_info_history].
    repeat constructor; discriminate. }
  exact (proj1 (proj2 (history_holds_short_kinds two_up_board
                         [CallGetAction; CallGetAction] H))).
Defined.

Ltac split_ifs :=
  repeat match goal with
  | |- context [if ?c then _ else _] => destruct c
  end.

(** X3.  An [update] call that passes the gate with the latch clear
    classifies the sample it has just read by the threshold cascade
    (rotation axis first): no gesture leaves the latch clear and the kind
    as it was; [UP] and [DOWN] are confirmed into [GO_FORWORD] and
    [RETURN] by the second sample or stay as they are; any other kind is
    latched as classified. *)
Theorem update_classifies_current_sample (interval : Z) (b : Board) :
  interval_elapsed interval b = true ->
  isValid (action_info (imu b)) = false ->
  let k := classify (m_ax (next_virtual b)) (m_ay (next_virtual b)) in
  let ax2 := m_ax (second_virtual b) in
  let b' := update interval b in
  isValid (action_info (imu b')) = negb (bool_decide (k = UNKNOWN)) /\
  active (action_info (imu b')) =
    match k with
    | UNKNOWN => active (action_info (imu b))
    | UP => if 5000 <? ax2 then GO_FORWORD else UP
    | DOWN => if ax2 <? -5000 then RETURN else DOWN
    | _ => k
    end.
Proof.
  intros Hel Hval k ax2 b'. unfold b', k, ax2, classify.
  rewrite update_elapsed_clear by assumption. cbv zeta.
  rewrite !(abs_gt _ 1000) by lia. change (- (1000)) with (-1000).
  destruct (4000 <? m_ay (next_virtual b)); [split; reflexivity|].
  destruct (m_ay (next_virtual b) <? -4000); [split; reflexivity|].
  destruct ((1000 <? m_ay (next_virtual b)) || (m_ay (next_virtual b) <? -1000));
    [split; reflexivity|].
  destruct (5000 <? m_ax (next_virtual b)).
  { destruct (5000 <? m_ax (second_virtual b)); split; reflexivity. }
  destruct (m_ax (next_virtual b) <? -5000).
  { destruct (m_ax (second_virtual b) <? -5000); split; reflexivity. }
  destruct ((1000 <? m_ax (next_virtual b)) || (m_ax (next_virtual b) <? -1000));
    split; reflexivity.
Qed.

Lemma update_classifies_current_sample_witness :
  isValid (action_info (imu (update 50 turn_board))) = true /\
  active (action_info (imu (update 50 turn_board))) = TURN_LEFT.
Proof.
  exact (update_classifies_current_sample 50 turn_board eq_refl eq_refl).
Defined.

Lemma long_press_fires_kind (b : Board) :
  long_press_fires b = true ->
  isValid (action_info (imu b)) = false /\
  (getAction_kind b = UP \/ getAction_kind b = DOWN).
Proof.
  unfold long_press_fires. cbv zeta. intros H.
  apply andb_true_iff in H as [H Hk]. apply andb_true_iff in H as [Hv _].
  split.
  - now destruct (isValid (action_info (imu b))).
  - apply orb_true_iff in Hk as [Hk|Hk]; apply bool_decide_eq_true in Hk;
      [left | right]; congruence.
Qed.

(** [getAction] with the latch clear, in one piece. *)
Lemma getAction_clear_eq (b : Board) :
  isValid (action_info (imu b)) = false ->
  getAction b =
  let k := getAction_kind b in
  let index := Z.rem (act_info_history_ind (imu b) + 1) ACTION_HISTORY_BUF_LEN in
  let h := hist_set (act_info_history (imu b)) index k in
  let second := Z.rem (index + ACTION_HISTORY_BUF_LEN - 1) ACTION_HISTORY_BUF_LEN in
  let third := Z.rem (index + ACTION_HISTORY_BUF_LEN - 2) ACTION_HISTORY_BUF_LEN in
  let w := mkWorld (sensor (world b)) (S (reads (world b)))
                   (clock (world b)) (waits (world b)) in
  if long_press_fires b then
    mkBoard (mkIMU (last_update_time (imu b)) (order (imu b))
               (set_active (if decide (k = UP) then GO_FORWORD else RETURN)
                           (set_isValid true (action_info (imu b))))
               (hist_set (hist_set h second UNKNOWN) third UNKNOWN) index)
            (encoder_diff b) (encoder_state b) w
  else
    mkBoard (mkIMU (last_update_time (imu b)) (order (imu b))
               (if decide (k = UNKNOWN) then action_info (imu b)
                else set_active k (set_isValid true (action_info (imu b))))
               h index)
            (encoder_diff b) (encoder_state b) w.
Proof.
  intros Hval. rewrite getAction_eq. cbv zeta.
  rewrite getAction_sequence_clear by assumption. cbv zeta.
  unfold long_press_fires. cbv zeta. rewrite Hval. cbn [negb andb].
  set (k := getAction_kind b).
  repeat case_bool_decide; cbn [andb orb fst snd]; try reflexivity;
    exfalso; intuition congruence.
Qed.

(** X9.  With the latch clear, [getAction] latches exactly when the kind
    it computed is not [UNKNOWN]; the latched kind is the computed one,
    except when the long-press guards hold, where it is [GO_FORWORD] for
    [UP] and [RETURN] for [DOWN]; on [UNKNOWN] the action record is left
    as it was. *)
Theorem getAction_latches_kind (b : Board) :
  isValid (action_info (imu b)) = false ->
  let k := getAction_kind b in
  let ai' := action_info (imu (getAction b)) in
  (isValid ai' = true <-> k <> UNKNOWN) /\
  (k = UNKNOWN -> ai' = action_info (imu b)) /\
  (k <> UNKNOWN -> long_press_fires b = false -> active ai' = k) /\
  (long_press_fires b = true ->
     (k = UP /\ active ai' = GO_FORWORD) \/ (k = DOWN /\ active ai' = RETURN)).
Proof.
  intros Hval k ai'. unfold ai'. rewrite getAction_clear_eq by assumption.
  cbv zeta. fold k.
  destruct (long_press_fires b) eqn:Hf.
  - destruct (long_press_fires_kind b Hf) as [_ Hk]. fold k in Hk.
    cbn [imu action_info isValid active set_active set_isValid].
    split; [|split; [|split]].
    + split; [intros _ | reflexivity].
      destruct Hk as [E|E]; rewrite E; discriminate.
    + intros E. rewrite E in Hk. destruct Hk; discriminate.
    + discriminate.
    + intros _. destruct Hk as [E|E]; rewrite E.
      * left. split; [reflexivity|]. now destruct (decide (UP = UP)).
      * right. split; [reflexivity|]. now destruct (decide (DOWN = UP)).
  - cbn [imu action_info]. destruct (decide (k = UNKNOWN)) as [E|E].
    + split; [|split; [|split]]; try discriminate; try congruence.
      rewrite Hval. split; [discriminate | congruence].
    + cbn [isValid active set_active set_isValid].
      split; [|split; [|split]]; try discriminate; try congruence.
      split; [intros _; exact E | reflexivity].
Qed.

Lemma getAction_latches_kind_witness :
  isValid (action_info (imu (getAction (boot (world_of [turn_sample] 0)))))
    = true /\
  active (action_info (imu (getAction (boot (world_of [turn_sample] 0)))))
    = TURN_LEFT.
Proof.
  destruct (getAction_latches_kind (boot (world_of [turn_sample] 0)) eq_refl)
    as (Hv & _ & Hk & _).
  split.
  - apply Hv. discriminate.
  - apply Hk; [discriminate | reflexivity].
Defined.

Lemma clear_latch_fields (b : Board) :
  isValid (action_info (imu (clear_latch b))) = false /\
  act_info_history (imu (clear_latch b)) = act_info_history (imu b) /\
  act_info_history_ind (imu (clear_latch b)) = act_info_history_ind (imu b).
Proof. repeat split. Qed.

(** After a call on which the long press fired, the guards fail on any
    board that carries the resulting ring buffer. *)
Lemma long_press_then_quiet (b b1 : Board) :
  hist_ok (imu b) ->
  long_press_fires b = true ->
  act_info_history (imu b1) = act_info_history (imu (getAction b)) ->
  act_info_history_ind (imu b1) = act_info_history_ind (imu (getAction b)) ->
  long_press_fires b1 = false.
Proof.
  intros [Hlen Hind] Hf Eh Ei.
  destruct (long_press_fires_kind b Hf) as [Hval Hk].
  rewrite getAction_clear_eq in Eh, Ei by assumption.
  rewrite Hf in Eh, Ei. cbv zeta in Eh, Ei.
  cbn [imu act_info_history act_info_history_ind] in Eh, Ei.
  unfold long_press_fires. cbv zeta. rewrite Eh, Ei. clear Eh Ei Hf.
  generalize dependent (getAction_kind b). intros k Hk.
  generalize (getAction_kind b1). intros k1.
  destruct (isValid (action_info (imu b1))); [reflexivity|]. cbn [negb andb].
  unfold hist_get, hist_set.
  ring_cases Hlen Hind; eval_indices; cbn -[decide bool_decide].
  all: repeat case_bool_decide; cbn [andb orb]; try reflexivity.
  all: exfalso; destruct Hk; congruence.
Qed.

(** X4.  Clearing on promotion: when the long press fires on a
    [getAction] call, it cannot fire on the next call made on the
    resulting ring buffer, whatever that call reads and whether or not
    the latch was cleared in between. *)
Theorem long_press_not_twice_in_a_row (b b1 : Board) :
  hist_ok (imu b) ->
  long_press_fires b = true ->
  act_info_history (imu b1) = act_info_history (imu (getAction b)) ->
  act_info_history_ind (imu b1) = act_info_history_ind (imu (getAction b)) ->
  long_press_fires b1 = false /\
  act_info_history (imu (getAction b1))
    = hist_set (act_info_history (imu b1))
        (Z.rem (act_info_history_ind (imu b1) + 1) ACTION_HISTORY_BUF_LEN)
        (getAction_kind b1).
Proof.
  intros Hok Hf Eh Ei.
  assert (Hq := long_press_then_quiet b b1 Hok Hf Eh Ei).
  split; [exact Hq|].
  destruct (isValid (action_info (imu b1))) eqn:Hv.
  - apply getAction_latched, Hv.
  - rewrite getAction_clear_eq by assumption. rewrite Hq. reflexivity.
Qed.

Lemma long_press_not_twice_in_a_row_witness :
  long_press_fires two_up_board = true /\
  long_press_fires (clear_latch (getAction two_up_board)) = false.
Proof.
  assert (Hok : hist_ok (imu two_up_board)).
  { split; [reflexivity | cbn; unfold ACTION_HISTORY_BUF_LEN; lia]. }
  split; [reflexivity|].
  exact (proj1 (long_press_not_twice_in_a_row two_up_board
                  (clear_latch (getAction two_up_board))
                  Hok eq_refl eq_refl eq_refl)).
Defined.

(** X5.  During a sustained hold the long press re-triggers on every
    second call: if it fired on a call, the caller clears the latch after
    each call, and the next two calls compute the same kind, then it does
    not fire on the first of them and fires again on the second. *)
Theorem long_press_every_second_call (b : Board) :
  hist_ok (imu b) ->
  long_press_fires b = true ->
  let b1 := clear_latch (getAction b) in
  let b2 := clear_latch (getAction b1) in
  getAction_kind b1 = getAction_kind b ->
  getAction_kind b2 = getAction_kind b ->
  long_press_fires b1 = false /\ long_press_fires b2 = true.
Proof.
  intros Hok Hf b1 b2 Hk1 Hk2.
  assert (Hq : long_press_fires b1 = false).
  { apply (long_press_then_quiet b b1 Hok Hf); reflexivity. }
  split; [exact Hq|].
  destruct (long_press_fires_kind b Hf) as [Hval Hk].
  destruct Hok as [Hlen Hind].
  unfold long_press_fires. cbv zeta. rewrite Hk2.
  unfold b2. destruct (clear_latch_fields (getAction b1)) as (-> & -> & ->).
  cbn [negb andb].
  rewrite (getAction_clear_eq b1) by reflexivity. rewrite Hq, Hk1.
  cbv zeta. cbn [imu act_info_history act_info_history_ind].
  unfold b1. destruct (clear_latch_fields (getAction b)) as (_ & -> & ->).
  rewrite (getAction_clear_eq b) by assumption. rewrite Hf.
  cbv zeta. cbn [imu act_info_history act_info_history_ind].
  clear Hf Hq Hk1 Hk2 b1 b2.
  generalize dependent (getAction_kind b). intros k Hk.
  unfold hist_get, hist_set.
  ring_cases Hlen Hind; eval_indices; cbn -[decide bool_decide].
  all: destruct Hk as [-> | ->].
  all: repeat case_bool_decide; cbn [andb orb]; try reflexivity.
  all: exfalso; congruence.
Qed.

Lemma long_press_every_second_call_witness :
  long_press_fires (clear_latch (getAction hold_board)) = false /\
  long_press_fires (clear_latch (getAction (clear_latch (getAction hold_board))))
    = true.
Proof.
  assert (Hok : hist_ok (imu hold_board)).
  { split; [reflexivity | cbn; unfold ACTION_HISTORY_BUF_LEN; lia]. }
  exact (long_press_every_second_call hold_board Hok eq_refl eq_refl eq_refl).
Defined.

Lemma neg16_involutive (x : Z) : in_int16 x -> neg16 (neg16 x) = x.
Proof.
  unfold in_int16, neg16, int16. intros H.
  destruct (Z.eq_dec x (-32768)) as [->|Hne]; [reflexivity|].
  rewrite (Z.mod_small (- x + 32768)) by lia.
  replace (- (- x + 32768 - 32768) + 32768) with (x + 32768) by lia.
  rewrite Z.mod_small by lia. lia.
Qed.

Lemma neg16_in_range (x : Z) : in_int16 (neg16 x).
Proof.
  unfold in_int16, neg16, int16.
  pose proof (Z.mod_pos_bound (- x + 32768) 65536 ltac:(lia)). lia.
Qed.

Lemma apply_order_fields (o : Z) (a : ImuAction) :
  apply_order o a
  = store_motion
      (transform (mkMotion6 (v_ax a) (v_ay a) (v_az a) (v_gx a) (v_gy a) (v_gz a))
                 (config_of_order o)) a.
Proof.
  rewrite <- apply_order_transform. destruct a; reflexivity.
Qed.

(** X6.  Applying the orientation mapping twice with the same mask: if
    swap-XY is clear, or invert-X and invert-Y are equal, the second
    application undoes the first on every [int16_t] sample; if swap-XY is
    set and exactly one of invert-X, invert-Y is set, the two
    applications together negate the X and Y accel and gyro values and
    restore Z. *)
Theorem apply_order_twice (o : Z) (a : ImuAction) :
  motion_in_range a ->
  (Z.testbit o 3 = false \/ Z.testbit o 0 = Z.testbit o 1 ->
   apply_order o (apply_order o a) = a) /\
  (Z.testbit o 3 = true -> Z.testbit o 0 <> Z.testbit o 1 ->
   apply_order o (apply_order o a)
   = mkImuAction (active a) (isValid a) (long_time a)
       (neg16 (v_ax a)) (neg16 (v_ay a)) (v_az a)
       (neg16 (v_gx a)) (neg16 (v_gy a)) (v_gz a)).
Proof.
  intros (Hax & Hay & Haz & Hgx & Hgy & Hgz).
  rewrite (apply_order_fields o (apply_order o a)).
  rewrite (apply_order_fields o a).
  unfold config_of_order.
  set (bx := Z.testbit o 0). set (bY := Z.testbit o 1).
  set (bz := Z.testbit o 2). set (bs := Z.testbit o 3).
  clearbody bx bY bz bs.
  destruct a as [k v l ax ay az gx gy gz].
  cbn [v_ax v_ay v_az v_gx v_gy v_gz active isValid long_time] in *.
  pose proof (neg16_involutive ax Hax) as Eax.
  pose proof (neg16_involutive ay Hay) as Eay.
  pose proof (neg16_involutive az Haz) as Eaz.
  pose proof (neg16_involutive gx Hgx) as Egx.
  pose proof (neg16_involutive gy Hgy) as Egy.
  pose proof (neg16_involutive gz Hgz) as Egz.
  split.
  - intros H.
    destruct bx, bY, bz, bs;
      try (destruct H; discriminate);
      cbv [transform swap_axes invert_axes store_motion
           invert_x invert_y invert_z swap_xy m_ax m_ay m_az m_gx m_gy m_gz
           v_ax v_ay v_az v_gx v_gy v_gz active isValid long_time];
      rewrite ?Eax, ?Eay, ?Eaz, ?Egx, ?Egy, ?Egz; reflexivity.
  - intros H3 H01. subst bs.
    destruct bx, bY, bz; try congruence;
      cbv [transform swap_axes invert_axes store_motion
           invert_x invert_y invert_z swap_xy m_ax m_ay m_az m_gx m_gy m_gz
           v_ax v_ay v_az v_gx v_gy v_gz active isValid long_time];
      rewrite ?Eax, ?Eay, ?Eaz, ?Egx, ?Egy, ?Egz; reflexivity.
Qed.

Lemma apply_order_twice_witness :
  apply_order 11 (apply_order 11 (mkImuAction UP true true 1 2 3 4 5 6))
    = mkImuAction UP true true 1 2 3 4 5 6 /\
  apply_order 9 (apply_order 9 (mkImuAction UP true true 1 2 3 4 5 6))
    = mkImuAction UP true true (-1) (-2) 3 (-4) (-5) 6.
Proof.
  assert (H : motion_in_range (mkImuAction UP true true 1 2 3 4 5 6)).
  { unfold motion_in_range, in_int16. cbn. lia. }
  split.
  - apply (proj1 (apply_order_twice 11 _ H)). right. reflexivity.
  - apply (proj2 (apply_order_twice 9 _ H)); [reflexivity | discriminate].
Defined.

(** X7.  The sensor and wait footprint of [update]: every call reads the
    sensor once on entry; it waits, once and for 500 ms, and reads a
    second time exactly when the gate is open, the latch is clear, the
    rotation axis is within its dead band (|ay| <= 1000) and the linear
    axis is beyond 5000; in every other case there is no wait and no
    second reading. *)
Theorem update_footprint (interval : Z) (b : Board) :
  let confirm :=
    interval_elapsed interval b
    && negb (isValid (action_info (imu b)))
    && negb (1000 <? Z.abs (m_ay (next_virtual b)))
    && (5000 <? Z.abs (m_ax (next_virtual b))) in
  world (update interval b) =
  if confirm
  then mkWorld (sensor (world b)) (S (S (reads (world b))))
               (clock (world b) + 500) (waits (world b) ++ [500])
  else mkWorld (sensor (world b)) (S (reads (world b)))
               (clock (world b)) (waits (world b)).
Proof.
  cbv zeta.
  destruct (interval_elapsed interval b) eqn:Hel; cbn [andb];
    [|now rewrite update_gate_closed by assumption].
  destruct (isValid (action_info (imu b))) eqn:Hval; cbn [andb negb];
    [now rewrite update_elapsed_latched by assumption|].
  rewrite update_elapsed_clear by assumption. cbv zeta.
  rewrite (abs_gt _ 1000), (abs_gt _ 5000) by lia.
  change (- (1000)) with (-1000). change (- (5000)) with (-5000).
  set (v := next_virtual b).
  destruct (Z.ltb_spec 4000 (m_ay v)), (Z.ltb_spec (m_ay v) (-4000)),
    (Z.ltb_spec 1000 (m_ay v)), (Z.ltb_spec (m_ay v) (-1000));
    cbn [orb andb negb world]; try reflexivity; try lia.
  destruct (5000 <? m_ax v); cbn [orb].
  { destruct (5000 <? m_ax (second_virtual b)); reflexivity. }
  destruct (m_ax v <? -5000); cbn [orb].
  { destruct (m_ax (second_virtual b) <? -5000); reflexivity. }
  destruct ((1000 <? m_ax v) || (m_ax v <? -1000)); reflexivity.
Qed.

Lemma uint32_sub_int32 (c dt : Z) :
  uint32 (uint32 (c + dt) - int32 (uint32 c)) = uint32 dt.
Proof.
  unfold uint32, int32.
  rewrite Zminus_mod. rewrite Z.mod_mod by lia.
  replace (((c mod 4294967296 + 2147483648) mod 4294967296 - 2147483648)
             mod 4294967296) with (c mod 4294967296).
  - rewrite <- Zminus_mod. f_equal. lia.
  - pose proof (Z.mod_pos_bound c 4294967296 ltac:(lia)) as Hc.
    set (m := c mod 4294967296) in *.
    destruct (Z_lt_le_dec m 2147483648).
    + rewrite (Z.mod_small (m + 2147483648)) by lia.
      replace (m + 2147483648 - 2147483648) with m by lia.
      symmetry. apply Z.mod_small. lia.
    + replace (m + 2147483648) with ((m - 2147483648) + 1 * 4294967296) by lia.
      rewrite Z.mod_add by lia.
      rewrite (Z.mod_small (m - 2147483648)) by lia.
      replace (m - 2147483648 - 2147483648) with (m + (-1) * 4294967296) by lia.
      rewrite Z.mod_add by lia. symmetry. apply Z.mod_small. lia.
Qed.

Lemma update_elapsed_stamp (interval : Z) (b : Board) :
  interval_elapsed interval b = true ->
  last_update_time (imu (update interval b))
  = int32 (millis (world (update interval b))).
Proof.
  intros H. destruct (update_elapsed_time interval b H) as [b1 E].
  rewrite E. reflexivity.
Qed.

(** X8.  The debounce interval: after an [update] call that passed the
    gate, a later call made [dt] milliseconds after the end of that call
    (0 <= dt < 2^32) passes the gate exactly when [dt] exceeds its
    interval read as an unsigned 32-bit value; this holds across the
    wrap-around of [millis()]: the clock value itself does not
    matter. *)
Theorem gate_after_update (interval0 interval dt : Z) (b : Board) :
  interval_elapsed interval0 b = true ->
  0 <= dt < 4294967296 ->
  interval_elapsed interval (advance dt (update interval0 b))
  = (uint32 interval <? dt).
Proof.
  intros Hel Hdt. unfold interval_elapsed, advance, millis.
  cbn [world set_world imu clock].
  rewrite update_elapsed_stamp by assumption. unfold millis.
  rewrite uint32_sub_int32. unfold uint32 at 2.
  rewrite (Z.mod_small dt) by lia. reflexivity.
Qed.

Lemma gate_after_update_witness :
  interval_elapsed 50 (advance 50 (update 50 turn_board)) = false /\
  interval_elapsed 50 (advance 51 (update 50 turn_board)) = true.
Proof.
  split.
  - rewrite (gate_after_update 50 50 50 turn_board eq_refl); [reflexivity | lia].
  - rewrite (gate_after_update 50 50 51 turn_board eq_refl); [reflexivity | lia].
Defined.

(** X10.  A negative interval is read as a large unsigned value: for
    -2^31 <= interval < 0 the gate opens only when more than
    2^32 + interval milliseconds have elapsed, and [update(-1)] never
    passes the gate: it only stores the new virtual sample. *)
Theorem update_negative_interval (interval : Z) (b : Board) :
  -2147483648 <= interval < 0 ->
  interval_elapsed interval b
  = (4294967296 + interval
       <? uint32 (millis (world b) - last_update_time (imu b))) /\
  update (-1) b = read_action_info b.
Proof.
  intros H. split.
  - unfold interval_elapsed. f_equal. unfold uint32.
    replace interval with ((4294967296 + interval) + (-1) * 4294967296) at 1
      by lia.
    rewrite Z.mod_add by lia. apply Z.mod_small. lia.
  - apply update_not_elapsed. unfold interval_elapsed.
    apply Z.ltb_ge. unfold uint32 at 1 2. change (-1 mod 4294967296) with 4294967295.
    pose proof (Z.mod_pos_bound (millis (world b) - last_update_time (imu b))
                  4294967296 ltac:(lia)).
    unfold uint32. lia.
Qed.

Lemma update_negative_interval_witness :
  update (-1) (advance 100000 turn_board)
  = read_action_info (advance 100000 turn_board).
Proof.
  apply (proj2 (update_negative_interval (-1) (advance 100000 turn_board)
                  ltac:(lia))).
Defined.

Lemma getAction_sequence_readings k index ai h :
  readings (fst (getAction_sequence k index ai h)) = readings ai /\
  long_time (fst (getAction_sequence k index ai h)) = long_time ai.
Proof.
  unfold getAction_sequence.
  destruct (negb (isValid ai)); [|split; reflexivity].
  destruct (decide (UNKNOWN <> k)); destruct (_ && _);
    destruct (decide (UP = k)); destruct (decide (DOWN = k));
    split; reflexivity.
Qed.

Lemma update_long_time (interval : Z) (b : Board) :
  long_time (action_info (imu (update interval b)))
  = long_time (action_info (imu b)).
Proof.
  destruct (interval_elapsed interval b) eqn:Hel.
  - destruct (isValid (action_info (imu b))) eqn:Hval.
    + now rewrite update_elapsed_latched by assumption.
    + rewrite update_elapsed_clear by assumption. cbv zeta.
      split_ifs; reflexivity.
  - now rewrite update_gate_closed by assumption.
Qed.

(** X11.  [getAction] never stores the sample it reads: over any number
    of [getAction] calls the readings [v_*] of [action_info] stay those of
    the last [update], while each call consumes one sensor reading; the
    calls never wait and never move [last_update_time] or the
    orientation. *)
Theorem getAction_keeps_readings (b : Board) (n : nat) :
  let b' := Nat.iter n getAction b in
  readings (action_info (imu b')) = readings (action_info (imu b)) /\
  last_update_time (imu b') = last_update_time (imu b) /\
  order (imu b') = order (imu b) /\
  world b' = mkWorld (sensor (world b)) (n + reads (world b))
                     (clock (world b)) (waits (world b)).
Proof.
  cbv zeta. induction n as [|n (IHr & IHt & IHo & IHw)].
  - destruct b as [m d st [sn rd ck ws]]. repeat split.
  - change (Nat.iter (S n) getAction b) with (getAction (Nat.iter n getAction b)).
    rewrite getAction_eq. cbv zeta.
    cbn [imu action_info last_update_time order world].
    destruct (getAction_sequence_readings
                (getAction_kind (Nat.iter n getAction b))
                (Z.rem (act_info_history_ind (imu (Nat.iter n getAction b)) + 1)
                       ACTION_HISTORY_BUF_LEN)
                (action_info (imu (Nat.iter n getAction b)))
                (hist_set (act_info_history (imu (Nat.iter n getAction b)))
                   (Z.rem (act_info_history_ind (imu (Nat.iter n getAction b)) + 1)
                          ACTION_HISTORY_BUF_LEN)
                   (getAction_kind (Nat.iter n getAction b)))) as [Er _].
    rewrite Er, IHr, IHt, IHo, IHw. repeat split.
Qed.

(** X12.  The sustained flag [long_time] is written by the constructor
    only: no sequence of engine calls changes it, so it is true for the
    whole life of the constructed engine, long press or not. *)
Theorem long_time_constant (b : Board) (cs : list call) :
  long_time (action_info (imu (run cs b))) = long_time (action_info (imu b)) /\
  (forall w d st,
     long_time (action_info (imu (run cs (mkBoard IMU_new d st w)))) = true).
Proof.
  assert (Run : forall cs0 b0,
            long_time (action_info (imu (run cs0 b0)))
            = long_time (action_info (imu b0))).
  { induction cs0 as [|c cs0 IH]; intros b0; [reflexivity|].
    rewrite run_cons, IH. destruct c as [|interval]; cbn [do_call].
    - rewrite getAction_eq. cbv zeta. cbn [imu action_info].
      apply getAction_sequence_readings.
    - apply update_long_time. }
  split; [apply Run|]. intros w d st. now rewrite Run.
Qed.

(** ** Properties of the path strings *)

Lemma copy_chars_app (dst src : list ascii) : copy_chars dst src = dst ++ src.
Proof.
  revert dst. induction src as [|c src IH]; intros dst; cbn.
  - now rewrite app_nil_r.
  - rewrite IH, <- app_assoc. reflexivity.
Qed.

Lemma join_path_snoc (p : list ascii) (c : ascii) (rear : list ascii) :
  join_path (p ++ [c]) rear =
  Some ((p ++ [c]) ++ (if Ascii.eqb c slash then [] else [slash])
        ++ match rear with
           | c0 :: rest => if Ascii.eqb c0 slash then rest else rear
           | [] => []
           end).
Proof.
  unfold join_path. rewrite last_snoc, !copy_chars_app. cbn [app].
  destruct (Ascii.eqb c slash); cbn [negb];
    rewrite ?copy_chars_app, <- ?app_assoc; destruct rear; reflexivity.
Qed.

(** X13.  [join_path] puts exactly one separator at the junction: for a
    non-empty first component [p] that does not end in a slash and a
    second component [r] that does not start with one, joining [p] or
    [p/] with [r] or [/r] gives [p/r] in all four combinations.  Only one
    leading slash of the second component is dropped.  With an empty
    first component the function reads before the start of the
    string. *)
Theorem join_path_one_separator (p r : list ascii) (c : ascii) :
  c <> slash ->
  head r <> Some slash ->
  let pre := p ++ [c] in
  join_path pre r = Some (pre ++ (slash :: r)) /\
  join_path (pre ++ [slash]) r = Some (pre ++ (slash :: r)) /\
  join_path pre (slash :: r) = Some (pre ++ (slash :: r)) /\
  join_path (pre ++ [slash]) (slash :: r) = Some (pre ++ (slash :: r)) /\
  join_path pre (slash :: slash :: r) = Some (pre ++ (slash :: slash :: r)) /\
  join_path [] r = None.
Proof.
  intros Hc Hr pre. unfold pre.
  assert (Ec : Ascii.eqb c slash = false) by (apply Ascii.eqb_neq, Hc).
  assert (Es : Ascii.eqb slash slash = true) by reflexivity.
  assert (Er : match r with
               | c0 :: rest => if Ascii.eqb c0 slash then rest else r
               | [] => []
               end = r).
  { destruct r as [|c0 rest]; [reflexivity|].
    destruct (Ascii.eqb_spec c0 slash) as [->|]; [|reflexivity].
    exfalso. apply Hr. reflexivity. }
  repeat split.
  - rewrite join_path_snoc, Ec, Er. reflexivity.
  - rewrite join_path_snoc, Es, Er. cbn [app]. now rewrite <- !app_assoc.
  - rewrite join_path_snoc, Ec, Es. reflexivity.
  - rewrite join_path_snoc, Es. cbn [app]. now rewrite <- !app_assoc.
  - rewrite join_path_snoc, Ec, Es. reflexivity.
Qed.

Lemma join_path_one_separator_witness :
  join_path ["/"; "i"; "m"; "g"]%char ["a"; "."; "b"]%char
    = Some ["/"; "i"; "m"; "g"; "/"; "a"; "."; "b"]%char /\
  join_path ["/"; "i"; "m"; "g"; "/"]%char ["/"; "a"; "."; "b"]%char
    = Some ["/"; "i"; "m"; "g"; "/"; "a"; "."; "b"]%char.
Proof.
  destruct (join_path_one_separator ["/"; "i"; "m"]%char ["a"; "."; "b"]%char
              "g"%char) as (H1 & _ & _ & H4 & _).
  - discriminate.
  - discriminate.
  - split; [exact H1 | exact H4].
Defined.

(** X14.  The length of a joined path: it holds the first component, at
    most one added separator and at most the second component, so a
    buffer of [FILENAME_MAX_LEN] bytes is enough (terminating NUL
    included) whenever the two components together have at most
    [FILENAME_MAX_LEN - 2] characters; and the result always ends with
    what is left of the second component. *)
Theorem join_path_length (pre rear dst : list ascii) :
  join_path pre rear = Some dst ->
  (length pre <= length dst <= length pre + 1 + length rear)%nat /\
  (Z.of_nat (length pre + length rear) <= FILENAME_MAX_LEN - 2 ->
   Z.of_nat (length dst) + 1 <= FILENAME_MAX_LEN) /\
  exists sep, dst = pre ++ sep ++ match rear with
                                  | c0 :: rest =>
                                      if Ascii.eqb c0 slash then rest else rear
                                  | [] => []
                                  end
              /\ (sep = [] \/ sep = [slash]).
Proof.
  intros H.
  destruct (decide (pre = [])) as [->|Hne]; [discriminate H|].
  destruct (exists_last Hne) as (p & c & ->).
  rewrite join_path_snoc in H. injection H as <-.
  set (sep := if Ascii.eqb c slash then [] else [slash]).
  set (rear' := match rear with
                | c0 :: rest => if Ascii.eqb c0 slash then rest else rear
                | [] => []
                end).
  assert (Hsep : (length sep <= 1)%nat)
    by (unfold sep; destruct (Ascii.eqb c slash); cbn; lia).
  assert (Hrear : (length rear' <= length rear)%nat).
  { unfold rear'. destruct rear as [|c0 rest]; [cbn; lia|].
    destruct (Ascii.eqb c0 slash); cbn; lia. }
  rewrite !length_app. unfold FILENAME_MAX_LEN.
  split; [lia|]. split; [lia|].
  exists sep. split; [reflexivity|].
  unfold sep. destruct (Ascii.eqb c slash); [left | right]; reflexivity.
Qed.

Lemma join_path_length_witness :
  (length ["/"; "i"; "m"; "g"; "/"; "a"]%char <= 4 + 1 + 1)%nat.
Proof.
  apply (join_path_length ["/"; "i"; "m"; "g"]%char ["a"]%char
           ["/"; "i"; "m"; "g"; "/"; "a"]%char eq_refl).
Defined.

Lemma basename_loop_app (ret d n : list ascii) :
  basename_loop ret (d ++ (slash :: n)) = basename_loop n n.
Proof.
  revert ret. induction d as [|c d IH]; intros ret; cbn.
  - reflexivity.
  - apply IH.
Qed.

Lemma basename_loop_no_slash (ret n : list ascii) :
  slash ∉ n -> basename_loop ret n = ret.
Proof.
  revert ret. induction n as [|c n IH]; intros ret Hn; cbn; [reflexivity|].
  apply not_elem_of_cons in Hn as [Hc Hn].
  destruct (Ascii.eqb_spec c slash) as [->|_]; [congruence|].
  apply IH, Hn.
Qed.

Lemma basename_loop_split (ret cur : list ascii) :
  ((slash ∉ cur) /\ basename_loop ret cur = ret) \/
  (exists d n, cur = d ++ (slash :: n) /\ (slash ∉ n) /\ basename_loop ret cur = n).
Proof.
  revert ret. induction cur as [|c cur IH]; intros ret; cbn.
  - left. split; [apply not_elem_of_nil | reflexivity].
  - destruct (Ascii.eqb_spec c slash) as [->|Hc].
    + right. destruct (IH cur) as [[Hn E]|(d & n & E & Hn & Eb)].
      * exists [], cur. repeat split; assumption.
      * exists (slash :: d), n. rewrite E at 1. repeat split; assumption.
    + destruct (IH ret) as [[Hn E]|(d & n & E & Hn & Eb)].
      * left. split; [|assumption].
        apply not_elem_of_cons. split; [congruence | assumption].
      * right. exists (c :: d), n. rewrite E at 1. repeat split; assumption.
Qed.

(** X15.  [get_file_basename] returns the part of the path after its
    last slash: the result contains no slash, and the path is the result
    itself (when it has no slash) or a directory part ending in a slash
    followed by the result; a path ending in a slash has the empty
    basename. *)
Theorem get_file_basename_spec (path : list ascii) :
  (slash ∉ get_file_basename path) /\
  (((slash ∉ path) /\ get_file_basename path = path) \/
   (exists d, path = d ++ (slash :: get_file_basename path))) /\
  get_file_basename (path ++ [slash]) = [] /\
  get_file_basename (get_file_basename path) = get_file_basename path.
Proof.
  unfold get_file_basename.
  assert (H : (slash ∉ basename_loop path path) /\
              (((slash ∉ path) /\ basename_loop path path = path) \/
               (exists d, path = d ++ (slash :: basename_loop path path)))).
  { destruct (basename_loop_split path path) as [[Hn E]|(d & n & E & Hn & Eb)].
    - rewrite E. split; [assumption|]. left. now split.
    - rewrite Eb. split; [assumption|]. right. now exists d. }
  destruct H as [Hn Hs]. split; [exact Hn|]. split; [exact Hs|]. split.
  - rewrite basename_loop_app. reflexivity.
  - apply basename_loop_no_slash, Hn.
Qed.

(** X16.  The two functions compose as [listDir] uses them: the basename
    of a joined path is the basename of its second component; so joining
    a non-empty directory with a plain name (no slash) and taking the
    basename gives the name back. *)
Theorem basename_of_join_path (pre name dst : list ascii) :
  join_path pre name = Some dst ->
  name <> [] ->
  get_file_basename dst = get_file_basename name /\
  (slash ∉ name -> get_file_basename dst = name).
Proof.
  intros H Hname.
  assert (E : get_file_basename dst = get_file_basename name).
  { destruct (decide (pre = [])) as [->|Hne]; [discriminate H|].
    destruct (exists_last Hne) as (p & c & ->).
    rewrite join_path_snoc in H. injection H as <-.
    unfold get_file_basename.
    destruct name as [|c0 rest]; [congruence|].
    assert (Es : forall n, basename_loop (slash :: n) (slash :: n)
                           = basename_loop n n)
      by (intros n; exact (basename_loop_app (slash :: n) [] n)).
    destruct (Ascii.eqb_spec c slash) as [->|Hc];
      destruct (Ascii.eqb_spec c0 slash) as [->|Hc0]; cbn [app].
    - rewrite <- app_assoc. cbn [app]. now rewrite basename_loop_app, Es.
    - rewrite <- app_assoc. cbn [app]. now rewrite basename_loop_app.
    - now rewrite (basename_loop_app _ (p ++ [c]) rest), Es.
    - now rewrite (basename_loop_app _ (p ++ [c]) (c0 :: rest)). }
  split; [exact E|].
  intros Hn. rewrite E. unfold get_file_basename.
  apply basename_loop_no_slash, Hn.
Qed.

Lemma basename_of_join_path_witness :
  get_file_basename ["/"; "i"; "m"; "g"; "/"; "a"; "."; "b"]%char
    = ["a"; "."; "b"]%char.
Proof.
  apply (proj2 (basename_of_join_path ["/"; "i"; "m"; "g"]%char
                  ["a"; "."; "b"]%char _ eq_refl ltac:(discriminate))).
  intros H. repeat (apply elem_of_cons in H as [H|H]; [discriminate H|]).
  now apply elem_of_nil in H.
Defined.

(** ** Properties of the colour animation *)

Lemma uint8_small (z : Z) : 0 <= z <= 255 -> uint8 z = z.
Proof. intros H. unfold uint8. apply Z.mod_small. lia. Qed.

Lemma uint8_range (z : Z) : 0 <= uint8 z <= 255.
Proof. unfold uint8. pose proof (Z.mod_pos_bound z 256 ltac:(lia)). lia. Qed.

Lemma int8_neg (z : Z) : -127 <= z <= 127 -> int8 ((-1) * z) = - z.
Proof.
  intros H. unfold int8. rewrite Z.mod_small by lia. lia.
Qed.

Lemma hsv_channel_range (cur step minv maxv : Z) :
  minv <= maxv ->
  minv <= fst (hsv_channel cur step minv maxv) <= maxv.
Proof.
  intros H. unfold hsv_channel.
  destruct (Z.leb_spec maxv (uint8 (cur + step))); [cbn; lia|].
  destruct (Z.leb_spec (uint8 (cur + step)) minv); cbn; lia.
Qed.

Section RgbLedFacts.

Variable float : Type.
Variable fadd : float -> float -> float.
Variable fmul : float -> float -> float.
Variable float_of_int : Z -> float.
Variable fge : float -> float -> bool.
Variable fle : float -> float -> bool.

Local Abbreviation hsv_tick := (led_hsvOnTimer fadd fmul float_of_int fge fle).
Local Abbreviation rgb_tick := (led_rgbOnTimer fadd fmul float_of_int fge fle).
Local Abbreviation brightness_tick :=
  (count_cur_brightness fadd fmul float_of_int fge fle).
Local Abbreviation tick := (timer_tick fadd fmul float_of_int fge fle).

Lemma count_cur_brightness_frame (l : Led float) :
  same_setting l (brightness_tick l) /\
  current_r (rgb_status (brightness_tick l)) = current_r (rgb_status l) /\
  current_g (rgb_status (brightness_tick l)) = current_g (rgb_status l) /\
  current_b (rgb_status (brightness_tick l)) = current_b (rgb_status l) /\
  pos (rgb_status (brightness_tick l)) = pos (rgb_status l) /\
  step_r (g_rgb (brightness_tick l)) = step_r (g_rgb l) /\
  step_g (g_rgb (brightness_tick l)) = step_g (g_rgb l) /\
  step_b (g_rgb (brightness_tick l)) = step_b (g_rgb l) /\
  led_cmds (brightness_tick l) = led_cmds l.
Proof.
  unfold count_cur_brightness, same_setting.
  destruct (fge _ _); [|destruct (fle _ _)]; cbn; repeat split.
Qed.

Lemma led_hsvOnTimer_channels (l : Led float) :
  let g := g_rgb l in
  let st := rgb_status l in
  current_r (rgb_status (hsv_tick l))
    = fst (hsv_channel (current_r st) (step_r g) (min_value_r g) (max_value_r g)) /\
  current_g (rgb_status (hsv_tick l))
    = fst (hsv_channel (current_g st) (step_g g) (min_value_g g) (max_value_g g)) /\
  current_b (rgb_status (hsv_tick l))
    = fst (hsv_channel (current_b st) (step_b g) (min_value_b g) (max_value_b g)) /\
  same_setting l (hsv_tick l).
Proof.
  cbv zeta. unfold led_hsvOnTimer.
  destruct (hsv_channel (current_r _) _ _ _) as [h sh].
  destruct (hsv_channel (current_g _) _ _ _) as [s ss].
  destruct (hsv_channel (current_b _) _ _ _) as [v sv].
  cbn [fst].
  match goal with
  | |- context [brightness_tick ?x] =>
      destruct (count_cur_brightness_frame x)
        as (Hs & Hr & Hg & Hb & _); revert Hs Hr Hg Hb;
      generalize (brightness_tick x)
  end.
  intros l' Hs Hr Hg Hb. cbn in *. unfold same_setting in *. cbn in *.
  repeat split; tauto.
Qed.

(** X17.  One firing of [led_hsvOnTimer]: whatever the three channels
    held before (and however the [uint8_t] addition wraps), afterwards
    each channel whose bounds are ordered lies within them; the bounds,
    the mode and the period of the setting are not changed; one
    [setHVS] and one [setBrightness] command are issued. *)
Theorem led_hsvOnTimer_in_bounds (l : Led float) :
  let l' := hsv_tick l in
  (min_value_r (g_rgb l) <= max_value_r (g_rgb l) ->
   min_value_r (g_rgb l) <= current_r (rgb_status l') <= max_value_r (g_rgb l)) /\
  (min_value_g (g_rgb l) <= max_value_g (g_rgb l) ->
   min_value_g (g_rgb l) <= current_g (rgb_status l') <= max_value_g (g_rgb l)) /\
  (min_value_b (g_rgb l) <= max_value_b (g_rgb l) ->
   min_value_b (g_rgb l) <= current_b (rgb_status l') <= max_value_b (g_rgb l)) /\
  same_setting l l' /\
  led_cmds l' = led_cmds l ++
    [SetHVS (current_r (rgb_status l')) (current_g (rgb_status l'))
            (current_b (rgb_status l'));
     SetBrightness (current_brightness (rgb_status l'))].
Proof.
  cbv zeta.
  destruct (led_hsvOnTimer_channels l) as (Er & Eg & Eb & Hs).
  rewrite Er, Eg, Eb.
  split; [apply hsv_channel_range|].
  split; [apply hsv_channel_range|].
  split; [apply hsv_channel_range|].
  split; [exact Hs|].
  rewrite <- Er, <- Eg, <- Eb.
  unfold led_hsvOnTimer.
  destruct (hsv_channel (current_r _) _ _ _) as [h sh].
  destruct (hsv_channel (current_g _) _ _ _) as [s ss].
  destruct (hsv_channel (current_b _) _ _ _) as [v sv].
  match goal with
  | |- context [brightness_tick ?x] =>
      destruct (count_cur_brightness_frame x) as (_ & _ & _ & _ & _ & _ & _ & _ & Hc);
      revert Hc; generalize (brightness_tick x)
  end.
  intros l' Hc. cbn in *. now rewrite Hc.
Qed.

Lemma set_rgb_hsv (setting : RgbParam float) (l : Led float) :
  mode setting = LED_MODE_HSV ->
  set_rgb setting l =
  mkLed setting
        (mkRgbRunStatus (min_value_r setting) (min_value_g setting)
                        (min_value_b setting) 0 (min_brightness setting))
        (Some cb_led_hsvOnTimer) (led_cmds l).
Proof. intros H. unfold set_rgb. rewrite H. reflexivity. Qed.

Lemma set_rgb_rgb (setting : RgbParam float) (l : Led float) :
  mode setting = LED_MODE_RGB ->
  set_rgb setting l =
  mkLed setting
        (mkRgbRunStatus (min_value_r setting) (min_value_g setting)
                        (min_value_b setting) 0 (min_brightness setting))
        (Some cb_led_rgbOnTimer) (led_cmds l).
Proof. intros H. unfold set_rgb. rewrite H. reflexivity. Qed.

Lemma same_setting_trans (l1 l2 l3 : Led float) :
  same_setting l1 l2 -> same_setting l2 l3 -> same_setting l1 l3.
Proof.
  unfold same_setting. intros H1 H2.
  repeat split; try (etransitivity; [apply H2 | apply H1]).
Qed.

Lemma same_setting_refl (l : Led float) : same_setting l l.
Proof. unfold same_setting. repeat split. Qed.

(** X18.  The HSV animation stays within its bounds: after [set_rgb]
    with an HSV setting whose bounds are ordered, the three channels lie
    within the bounds of the setting after any number of timer firings;
    the bounds, mode and period stay those of the setting, the timer
    keeps its callback, and every firing issues two commands. *)
Theorem hsv_animation_in_bounds (setting : RgbParam float) (l : Led float)
    (n : nat) :
  mode setting = LED_MODE_HSV ->
  bounds_ordered setting ->
  let l0 := set_rgb setting l in
  let ln := Nat.iter n tick l0 in
  in_bounds ln /\
  same_setting l0 ln /\
  xTimer_rgb ln = Some cb_led_hsvOnTimer /\
  length (led_cmds ln) = (length (led_cmds l) + 2 * n)%nat.
Proof.
  intros Hm Ho l0 ln. unfold ln, l0. clear ln l0.
  rewrite set_rgb_hsv by assumption.
  induction n as [|n (IHb & IHs & IHt & IHc)].
  - cbn. unfold in_bounds, bounds_ordered in *. cbn.
    split; [lia|]. split; [apply same_setting_refl|].
    split; [reflexivity | lia].
  - match goal with
    | |- context [Nat.iter (S n) ?f ?x] =>
        change (Nat.iter (S n) f x) with (f (Nat.iter n f x));
        revert IHb IHs IHt IHc; generalize (Nat.iter n f x)
    end.
    intros m IHb IHs IHt IHc.
    unfold timer_tick. rewrite IHt.
    destruct (led_hsvOnTimer_channels m) as (Er & Eg & Eb & Hs).
    assert (Hord : bounds_ordered (g_rgb m)).
    { unfold bounds_ordered, same_setting in *. cbn in IHs.
      destruct IHs as (_ & -> & -> & -> & -> & -> & -> & _). exact Ho. }
    split.
    { unfold in_bounds.
      destruct Hs as (_ & -> & -> & -> & -> & -> & -> & _).
      rewrite Er, Eg, Eb. destruct Hord as (H1 & H2 & H3).
      split; [|split]; apply hsv_channel_range; assumption. }
    split; [eapply same_setting_trans; eassumption|].
    split.
    { destruct Hs as (_ & _ & _ & _ & _ & _ & _ & _ & ->). exact IHt. }
    unfold led_hsvOnTimer.
    destruct (hsv_channel (current_r _) _ _ _) as [h sh].
    destruct (hsv_channel (current_g _) _ _ _) as [s ss].
    destruct (hsv_channel (current_b _) _ _ _) as [v sv].
    match goal with
    | |- context [brightness_tick ?x] =>
        destruct (count_cur_brightness_frame x)
          as (_ & _ & _ & _ & _ & _ & _ & _ & Hc);
        revert Hc; generalize (brightness_tick x)
    end.
    intros l' Hc. cbn in *. rewrite Hc, length_app. cbn. lia.
Qed.

Lemma led_rgbOnTimer_fields (l : Led float) :
  let p := led_rgb_phase l in
  same_setting p (rgb_tick l) /\
  current_r (rgb_status (rgb_tick l)) = current_r (rgb_status p) /\
  current_g (rgb_status (rgb_tick l)) = current_g (rgb_status p) /\
  current_b (rgb_status (rgb_tick l)) = current_b (rgb_status p) /\
  pos (rgb_status (rgb_tick l)) = pos (rgb_status p) /\
  step_r (g_rgb (rgb_tick l)) = step_r (g_rgb p) /\
  step_g (g_rgb (rgb_tick l)) = step_g (g_rgb p) /\
  step_b (g_rgb (rgb_tick l)) = step_b (g_rgb p) /\
  length (led_cmds (rgb_tick l)) = (length (led_cmds p) + 2)%nat.
Proof.
  cbv zeta. unfold led_rgbOnTimer.
  destruct (count_cur_brightness_frame (led_rgb_phase l))
    as (Hs & Hr & Hg & Hb & Hp & Hsr & Hsg & Hsb & Hc).
  revert Hs Hr Hg Hb Hp Hsr Hsg Hsb Hc.
  generalize (brightness_tick (led_rgb_phase l)).
  intros l' Hs Hr Hg Hb Hp Hsr Hsg Hsb Hc. cbn.
  repeat split; try assumption; try apply Hs.
  rewrite length_app, Hc. cbn. lia.
Qed.

Ltac led_fields :=
  cbn [g_rgb rgb_status xTimer_rgb led_cmds mode time
       min_value_r min_value_g min_value_b max_value_r max_value_g max_value_b
       step_r step_g step_b min_brightness max_brightness brightness_step
       current_r current_g current_b pos current_brightness andb] in *.

Ltac phase_cases :=
  repeat match goal with
  | |- context [Z.eqb ?x ?y] => destruct (Z.eqb_spec x y)
  | |- context [Z.leb ?x ?y] => destruct (Z.leb_spec x y)
  | |- context [Z.ltb ?x ?y] => destruct (Z.ltb_spec x y)
  end; led_fields.

(** The colour phases of one firing, on the fields. *)
Lemma led_rgb_phase_frame (l : Led float) :
  let p := led_rgb_phase l in
  same_setting l p /\
  step_g (g_rgb p) = step_g (g_rgb l) /\
  step_b (g_rgb p) = step_b (g_rgb l) /\
  led_cmds p = led_cmds l /\
  (step_r (g_rgb p) = step_r (g_rgb l) \/
   step_r (g_rgb p) = int8 ((-1) * step_r (g_rgb l))) /\
  (pos (rgb_status l) = 0 ->
     current_g (rgb_status p) = current_g (rgb_status l) /\
     current_b (rgb_status p) = current_b (rgb_status l) /\
     (pos (rgb_status p) = 0 \/ pos (rgb_status p) = 1)) /\
  (pos (rgb_status l) = 1 ->
     current_r (rgb_status p) = current_r (rgb_status l) /\
     current_b (rgb_status p) = current_b (rgb_status l) /\
     phase_ok p) /\
  (pos (rgb_status l) = 2 ->
     current_r (rgb_status p) = current_r (rgb_status l) /\
     current_g (rgb_status p) = current_g (rgb_status l) /\
     (pos (rgb_status p) = 1 \/ pos (rgb_status p) = 2)) /\
  (~ phase_ok l -> p = l).
Proof.
  cbv zeta. unfold led_rgb_phase, set_colour, same_setting, phase_ok.
  destruct l as [g st tm cmds]. led_fields.
  phase_cases; repeat split; intros; try reflexivity; try tauto; try lia.
Qed.

(** X19.  One firing of [led_rgbOnTimer]: only the channel selected by
    the phase [pos] can change (red for 0, green for 1, blue for 2) and
    the phase moves to a neighbouring phase or stays; [step_g] and
    [step_b] are never changed (nor read: all three channels step by
    [step_r], which keeps its value or is negated); bounds, mode and
    period are kept; outside the three phases the colour state is left
    alone. *)
Theorem led_rgbOnTimer_phases (l : Led float) :
  let l' := rgb_tick l in
  same_setting l l' /\
  step_g (g_rgb l') = step_g (g_rgb l) /\
  step_b (g_rgb l') = step_b (g_rgb l) /\
  (step_r (g_rgb l') = step_r (g_rgb l) \/
   step_r (g_rgb l') = int8 ((-1) * step_r (g_rgb l))) /\
  (pos (rgb_status l) = 0 ->
     current_g (rgb_status l') = current_g (rgb_status l) /\
     current_b (rgb_status l') = current_b (rgb_status l) /\
     (pos (rgb_status l') = 0 \/ pos (rgb_status l') = 1)) /\
  (pos (rgb_status l) = 1 ->
     current_r (rgb_status l') = current_r (rgb_status l) /\
     current_b (rgb_status l') = current_b (rgb_status l) /\
     phase_ok l') /\
  (pos (rgb_status l) = 2 ->
     current_r (rgb_status l') = current_r (rgb_status l) /\
     current_g (rgb_status l') = current_g (rgb_status l) /\
     (pos (rgb_status l') = 1 \/ pos (rgb_status l') = 2)) /\
  (~ phase_ok l ->
     current_r (rgb_status l') = current_r (rgb_status l) /\
     current_g (rgb_status l') = current_g (rgb_status l) /\
     current_b (rgb_status l') = current_b (rgb_status l) /\
     pos (rgb_status l') = pos (rgb_status l) /\
     step_r (g_rgb l') = step_r (g_rgb l)).
Proof.
  cbv zeta.
  destruct (led_rgbOnTimer_fields l)
    as (Hs & Hr & Hg & Hb & Hp & Hsr & Hsg & Hsb & _).
  destruct (led_rgb_phase_frame l)
    as (Fs & Fsg & Fsb & _ & Fsr & F0 & F1 & F2 & Fn).
  unfold phase_ok in *. rewrite Hr, Hg, Hb, Hp, Hsr, Hsg, Hsb.
  split; [eapply same_setting_trans; eassumption|].
  split; [assumption|]. split; [assumption|]. split; [assumption|].
  split; [assumption|]. split; [assumption|]. split; [assumption|].
  intros Hn. rewrite (Fn Hn). repeat split.
Qed.

(** The invariant of the RGB animation without wrap-around. *)
Lemma led_rgb_phase_in_bounds (l : Led float) :
  no_wrap (g_rgb l) -> bounds_ordered (g_rgb l) ->
  in_bounds l -> phase_ok l ->
  let p := led_rgb_phase l in
  in_bounds p /\ phase_ok p /\ no_wrap (g_rgb p) /\ bounds_ordered (g_rgb p).
Proof.
  cbv zeta. unfold led_rgb_phase, set_colour, no_wrap, bounds_ordered,
    in_bounds, phase_ok.
  destruct l as [g st tm cmds]. led_fields.
  destruct g as [md nr ng nb xr xg xb sr sg sb nbr xbr bst tmv].
  destruct st as [r gr bl p cb]. led_fields.
  intros (Hs & Hnr & Hxr & Hng & Hxg & Hnb & Hxb) (Or & Og & Ob)
         (Br & Bg & Bb) Hp.
  rewrite (uint8_small (r + sr)) by lia.
  rewrite (uint8_small (gr + sr)) by lia.
  rewrite (uint8_small (bl + sr)) by lia.
  rewrite (int8_neg sr) by lia.
  phase_cases; lia.
Qed.

(** X20.  The RGB animation without wrap-around: after [set_rgb] with an
    RGB setting whose bounds are ordered and whose step fits between
    every bound and the ends of 0..255, the three channels lie within
    their bounds and the phase is 0, 1 or 2 after any number of timer
    firings; every firing issues two commands. *)
Theorem rgb_animation_in_bounds (setting : RgbParam float) (l : Led float)
    (n : nat) :
  mode setting = LED_MODE_RGB ->
  bounds_ordered setting ->
  no_wrap setting ->
  let l0 := set_rgb setting l in
  let ln := Nat.iter n tick l0 in
  in_bounds ln /\ phase_ok ln /\
  same_setting l0 ln /\
  length (led_cmds ln) = (length (led_cmds l) + 2 * n)%nat.
Proof.
  intros Hm Ho Hw l0 ln. unfold ln, l0. clear ln l0.
  rewrite set_rgb_rgb by assumption.
  assert (Inv : forall k,
    let m := Nat.iter k tick
               (mkLed setting
                  (mkRgbRunStatus (min_value_r setting) (min_value_g setting)
                     (min_value_b setting) 0 (min_brightness setting))
                  (Some cb_led_rgbOnTimer) (led_cmds l)) in
    in_bounds m /\ phase_ok m /\ no_wrap (g_rgb m) /\ bounds_ordered (g_rgb m) /\
    same_setting
      (mkLed setting
         (mkRgbRunStatus (min_value_r setting) (min_value_g setting)
            (min_value_b setting) 0 (min_brightness setting))
         (Some cb_led_rgbOnTimer) (led_cmds l)) m /\
    length (led_cmds m) = (length (led_cmds l) + 2 * k)%nat).
  { induction k as [|k IH]; cbv zeta.
    - cbn. unfold in_bounds, phase_ok, bounds_ordered in *. cbn.
      split; [lia|]. split; [tauto|]. split; [exact Hw|]. split; [exact Ho|].
      split; [apply same_setting_refl | lia].
    - cbv zeta in IH. revert IH.
      match goal with
      | |- context [Nat.iter (S k) ?f ?x] =>
          change (Nat.iter (S k) f x) with (f (Nat.iter k f x));
          generalize (Nat.iter k f x)
      end.
      intros m (Ib & Ip & Iw & Io & Is & Ic).
      assert (Ht : xTimer_rgb m = Some cb_led_rgbOnTimer)
        by (destruct Is as (_ & _ & _ & _ & _ & _ & _ & _ & ->); reflexivity).
      unfold timer_tick. rewrite Ht.
      destruct (led_rgb_phase_in_bounds m Iw Io Ib Ip) as (Pb & Pp & Pw & Po).
      destruct (led_rgb_phase_frame m) as (Fs & _ & _ & Fc & _).
      destruct (led_rgbOnTimer_fields m)
        as (Hs & Hr & Hg & Hb & Hp & Hsr & Hsg & Hsb & Hc).
      assert (Ss : same_setting m (rgb_tick m))
        by (eapply same_setting_trans; eassumption).
      unfold in_bounds, phase_ok, no_wrap, bounds_ordered in *.
      destruct Hs as (_ & E1 & E2 & E3 & E4 & E5 & E6 & _).
      rewrite Hr, Hg, Hb, Hp, Hsr, E1, E2, E3, E4, E5, E6.
      split; [exact Pb|]. split; [exact Pp|]. split; [exact Pw|].
      split; [exact Po|].
      split; [eapply same_setting_trans; eassumption|].
      rewrite Hc, Fc, Ic. lia. }
  destruct (Inv n) as (Ib & Ip & _ & _ & Is & Ic).
  split; [exact Ib|]. split; [exact Ip|]. split; [exact Is | exact Ic].
Qed.

End RgbLedFacts.

Lemma led_hsvOnTimer_in_bounds_witness :
  10 <= current_r (rgb_status
          (z_hsv_tick (mkLed hsv_setting (mkRgbRunStatus 253 0 0 0 0) None [])))
     <= 200.
Proof.
  apply (led_hsvOnTimer_in_bounds Z Z.add Z.mul (fun z => z) Z.geb Z.leb
           (mkLed hsv_setting (mkRgbRunStatus 253 0 0 0 0) None [])).
  cbn. lia.
Defined.

Lemma hsv_animation_in_bounds_witness :
  in_bounds (Nat.iter 40 z_tick (set_rgb hsv_setting led_off)).
Proof.
  apply (hsv_animation_in_bounds Z Z.add Z.mul (fun z => z) Z.geb Z.leb
           hsv_setting led_off 40 eq_refl).
  unfold bounds_ordered. cbn. lia.
Defined.

Lemma led_rgbOnTimer_phases_witness :
  current_g (rgb_status (z_rgb_tick (set_rgb rgb_setting led_off))) = 20 /\
  current_b (rgb_status (z_rgb_tick (set_rgb rgb_setting led_off))) = 30.
Proof.
  destruct (led_rgbOnTimer_phases Z Z.add Z.mul (fun z => z) Z.geb Z.leb
              (set_rgb rgb_setting led_off)) as (_ & _ & _ & _ & H0 & _).
  destruct H0 as (Hg & Hb & _); [reflexivity|].
  split; [exact Hg | exact Hb].
Defined.

Lemma rgb_animation_in_bounds_witness :
  in_bounds (Nat.iter 100 z_tick (set_rgb rgb_setting led_off)) /\
  phase_ok (Nat.iter 100 z_tick (set_rgb rgb_setting led_off)).
Proof.
  assert (Ho : bounds_ordered rgb_setting) by (unfold bounds_ordered; cbn; lia).
  assert (Hw : no_wrap rgb_setting) by (unfold no_wrap; cbn; lia).
  destruct (rgb_animation_in_bounds Z Z.add Z.mul (fun z => z) Z.geb Z.leb
              rgb_setting led_off 100 eq_refl Ho Hw) as (Hb & Hp & _).
  split; [exact Hb | exact Hp].
Defined.

(** ** Properties of the light sensor *)

Lemma lor_bytes (h l : Z) :
  0 <= h < 256 -> 0 <= l < 256 ->
  Z.lor (Z.shiftl h 8) l = 256 * h + l.
Proof.
  intros Hh Hl. rewrite Z.shiftl_mul_pow2 by lia.
  change (2 ^ 8) with 256.
  rewrite <- Z.lxor_lor.
  - rewrite <- Z.add_nocarry_lxor; [lia|].
    apply Z.bits_inj'. intros n Hn. rewrite Z.land_spec, Z.bits_0.
    destruct (Z_lt_le_dec n 8).
    + replace (h * 256) with (h * 2 ^ 8) by reflexivity.
      rewrite Z.mul_pow2_bits_low by lia. reflexivity.
    + rewrite (Z.bits_above_log2 l n); [apply andb_false_r | lia |].
      destruct (Z.eq_dec l 0) as [->|]; [cbn; lia|].
      apply Z.log2_lt_pow2; [lia|].
      apply Z.lt_le_trans with (2 ^ 8); [cbn; lia|].
      apply Z.pow_le_mono_r; lia.
  - apply Z.bits_inj'. intros n Hn. rewrite Z.land_spec, Z.bits_0.
    destruct (Z_lt_le_dec n 8).
    + replace (h * 256) with (h * 2 ^ 8) by reflexivity.
      rewrite Z.mul_pow2_bits_low by lia. reflexivity.
    + rewrite (Z.bits_above_log2 l n); [apply andb_false_r | lia |].
      destruct (Z.eq_dec l 0) as [->|]; [cbn; lia|].
      apply Z.log2_lt_pow2; [lia|].
      apply Z.lt_le_trans with (2 ^ 8); [cbn; lia|].
      apply Z.pow_le_mono_r; lia.
Qed.

(** X21.  [getLux] inside the sampling time does no bus traffic and
    changes nothing; it returns the mean of the five stored values,
    rounded down, as long as their sum fits an [unsigned int]. *)
Theorem getLux_between_samples (lux_of_raw : Z -> Z) (a : Ambient) (w : Wire)
    (l0 l1 l2 l3 l4 : Z) :
  sample_due a w = false ->
  lux a = [l0; l1; l2; l3; l4] ->
  0 <= l0 -> 0 <= l1 -> 0 <= l2 -> 0 <= l3 -> 0 <= l4 ->
  l0 + l1 + l2 + l3 + l4 < 4294967296 ->
  getLux lux_of_raw a w = ((l0 + l1 + l2 + l3 + l4) / 5, a, w).
Proof.
  intros Hd Hl H0 H1 H2 H3 H4 Hs. unfold getLux. rewrite Hd, Hl.
  cbn [sum_lux lookup list_lookup default]. cbn -[uint32 Z.div Z.add].
  unfold uint32.
  rewrite (Z.mod_small (0 + l4)) by lia.
  rewrite (Z.mod_small (0 + l4 + l3)) by lia.
  rewrite (Z.mod_small (0 + l4 + l3 + l2)) by lia.
  rewrite (Z.mod_small (0 + l4 + l3 + l2 + l1)) by lia.
  rewrite (Z.mod_small (0 + l4 + l3 + l2 + l1 + l0)) by lia.
  do 3 f_equal. lia.
Qed.

Lemma getLux_between_samples_witness :
  getLux (fun z => z * 5 / 6)
         (mkAmbient 32 0 0 0 0 [10; 20; 30; 40; 50] 125 1000)
         (mkWire 1100 (fun _ => 0) 0 [])
  = (30, mkAmbient 32 0 0 0 0 [10; 20; 30; 40; 50] 125 1000,
     mkWire 1100 (fun _ => 0) 0 []).
Proof.
  apply (getLux_between_samples (fun z => z * 5 / 6) _ _ 10 20 30 40 50);
    try reflexivity; lia.
Defined.

(** X22.  [getLux] when a sample is due: it reads two bytes, combines
    them into the 16-bit value [256 * high + low], pushes its conversion
    in front of the five-slot buffer and drops the oldest value, stamps
    [last_time] and writes one byte, the stored mode reduced to
    [uint8_t] (the mode itself when it is within 0..255), to trigger the
    next measurement; the sample is then not due again at the same
    time. *)
Theorem getLux_takes_sample (lux_of_raw : Z -> Z) (a : Ambient) (w : Wire)
    (l0 l1 l2 l3 l4 : Z) :
  sample_due a w = true ->
  lux a = [l0; l1; l2; l3; l4] ->
  let hb := uint8 (wire_in w (wire_reads w)) in
  let lb := uint8 (wire_in w (S (wire_reads w))) in
  let '(avg, a', w') := getLux lux_of_raw a w in
  sensorOut a' = 256 * hb + lb /\
  0 <= sensorOut a' <= 65535 /\
  lux a' = [lux_of_raw (256 * hb + lb); l0; l1; l2; l3] /\
  avg = sum_lux 5 0 (lux a') / 5 /\
  wire_reads w' = S (S (wire_reads w)) /\
  wire_out w' = wire_out w ++ [mMode a mod 256] /\
  (0 <= mMode a <= 255 -> wire_out w' = wire_out w ++ [mMode a]) /\
  mMode a' = mMode a /\
  sample_due a' w' = false.
Proof.
  intros Hd Hl hb lb. unfold getLux. rewrite Hd, Hl.
  fold hb lb.
  assert (Hhb : 0 <= hb <= 255) by apply uint8_range.
  assert (Hlb : 0 <= lb <= 255) by apply uint8_range.
  rewrite (lor_bytes hb lb) by lia.
  cbn [sensorOut lux wire_reads wire_out mMode].
  split; [reflexivity|]. split; [lia|]. split; [reflexivity|].
  split; [reflexivity|]. split; [reflexivity|]. split; [reflexivity|].
  split; [intros Hm; now rewrite uint8_small by assumption|].
  split; [reflexivity|].
  unfold sample_due. cbn [sample_time last_time wire_clock].
  apply Z.ltb_ge.
  replace (uint32 (uint32 (wire_clock w) - int32 (uint32 (wire_clock w))))
    with 0.
  - unfold uint32. apply Z.mod_pos_bound. lia.
  - rewrite <- (Z.add_0_r (wire_clock w)) at 1.
    rewrite uint32_sub_int32. reflexivity.
Qed.

Lemma getLux_takes_sample_witness :
  lux (snd (fst (getLux (fun z => z * 5 / 6)
                   (mkAmbient 291 0 0 0 0 [10; 20; 30; 40; 50] 125 1000)
                   (mkWire 2000 (fun n => if Nat.eqb n 0 then 1 else 44) 0 []))))
  = [250; 10; 20; 30; 40] /\
  wire_out (snd (getLux (fun z => z * 5 / 6)
                   (mkAmbient 291 0 0 0 0 [10; 20; 30; 40; 50] 125 1000)
                   (mkWire 2000 (fun n => if Nat.eqb n 0 then 1 else 44) 0 [])))
  = [35].
Proof.
  pose proof (getLux_takes_sample (fun z => z * 5 / 6)
                (mkAmbient 291 0 0 0 0 [10; 20; 30; 40; 50] 125 1000)
                (mkWire 2000 (fun n => if Nat.eqb n 0 then 1 else 44) 0 [])
                10 20 30 40 50 eq_refl eq_refl) as H.
  cbv zeta in H.
  destruct (getLux _ _ _) as [[avg a'] w'].
  destruct H as (_ & _ & Hl & _ & _ & Hw & _). split; [exact Hl | exact Hw].
Defined.

(** ** Where [getAction] agrees with the cascade *)

(** X23.  The kind [getAction] computes equals the threshold cascade on
    the sample it has just read whenever the rotation axis is beyond its
    dead band, or the linear axis is beyond 5000, or the [v_ax] stored in
    [action_info] is on the same side of the shake threshold as the
    current one; in the remaining region (|ay| <= 1000 and |ax| <= 5000)
    the kind depends on the stored [v_ax] alone: [SHAKE] if it is beyond
    1000, [UNKNOWN] otherwise. *)
Theorem getAction_kind_vs_cascade (b : Board) :
  let ay := m_ay (next_virtual b) in
  let ax := m_ax (next_virtual b) in
  let old_ax := v_ax (action_info (imu b)) in
  (1000 < Z.abs ay \/ 5000 < Z.abs ax \/
   (1000 <? Z.abs old_ax) = (1000 <? Z.abs ax) ->
   getAction_kind b = classify ax ay) /\
  (Z.abs ay <= 1000 -> Z.abs ax <= 5000 ->
   getAction_kind b = if 1000 <? Z.abs old_ax then SHAKE else UNKNOWN).
Proof.
  intros ay ax old_ax. split.
  - apply getAction_kind_classify.
  - intros Hay Hax. rewrite getAction_kind_cascade. cbv zeta.
    fold ay ax old_ax. rewrite (abs_gt old_ax 1000) by lia.
    change (- (1000)) with (-1000).
    destruct (Z.ltb_spec 4000 ay); [lia|].
    destruct (Z.ltb_spec ay (-4000)); [lia|].
    destruct (Z.ltb_spec 1000 ay); [lia|].
    destruct (Z.ltb_spec ay (-1000)); [lia|]. cbn [orb].
    destruct (Z.ltb_spec 5000 ax); [lia|].
    destruct (Z.ltb_spec ax (-5000)); [lia|]. reflexivity.
Qed.

Lemma getAction_kind_vs_cascade_witness :
  getAction_kind (boot (world_of [turn_sample] 0)) = classify 0 4500 /\
  getAction_kind stale_board = SHAKE.
Proof.
  split.
  - apply (proj1 (getAction_kind_vs_cascade (boot (world_of [turn_sample] 0)))).
    left. reflexivity.
  - apply (proj2 (getAction_kind_vs_cascade stale_board));
      vm_compute; discriminate.
Defined.
